(** * Past-due milestone agent: a shallow embedding of
      [smartsheet_past_due_agent_wide.py] and its specification.

    The Python functions are embedded as Rocq functions with the same names.
    Conventions of the embedding:

    - a Python [str] is a [string]; [str.strip], [str.lower] and the [\d]
      class of [re] are modelled on the ASCII range (for [strip]: the ten
      ASCII characters for which [str.isspace] holds); [int] has the limit
      of 4300 digits of Python 3.11 and of the patched earlier versions;
    - a JSON scalar decoded by [r.json()] is a [pyval]: [None], a [bool], an
      [int] or a [str]; floating-point numbers and nested containers are
      outside the cell-value model;
    - a Python [dict] whose iteration order matters is an association list
      kept in insertion order;
    - a raised exception is the [Raise] case of [result];
    - [datetime.fromisoformat] follows the grammar its documentation gives
      (Python 3.7 to 3.10); the general statements below use it only
      through the fact that the dates it returns exist in the calendar;
    - the ambient process state read by [get_today_local] (the [TIMEZONE]
      setting and the system clock behind [pytz] and [datetime.now]) is a
      [World]; [pytz.timezone] raises on a zone name it does not know. *)

From Stdlib Require Import ZArith Bool List String Ascii Lia.
From Stdlib Require Import DecimalString Permutation Sorted.
From Stdlib Require DecimalZ.
Import ListNotations.

Open Scope string_scope.
Open Scope Z_scope.

(* ================================================================== *)
(** * Exceptions *)

(** raised exceptions *)
Inductive exn : Type :=
| RuntimeError (msg : string)
| KeyError (key : string)
| ValueError
| UnknownTimeZoneError (zone : string).

Inductive result (A : Type) : Type :=
| Ok (a : A)
| Raise (e : exn).
Arguments Ok {A} a.
Arguments Raise {A} e.

Definition bind {A B} (r : result A) (k : A -> result B) : result B :=
  match r with
  | Ok a => k a
  | Raise e => Raise e
  end.

Notation "x <- c ;; k" := (bind c (fun x => k))
  (at level 61, c at next level, right associativity).

(** [try: ... except Exception: return None] around a computation *)
Definition try_or_none {A} (r : result A) : option A :=
  match r with
  | Ok a => Some a
  | Raise _ => None
  end.

(* ================================================================== *)
(** * Strings *)

Module PyStr.

(** [str.isspace] on one ASCII character: TAB, LF, VT, FF, CR, the four
    separators FS, GS, RS, US and the space. *)
Definition is_space (c : ascii) : bool :=
  let n := nat_of_ascii c in
  ((9 <=? n)%nat && (n <=? 13)%nat) || ((28 <=? n)%nat && (n <=? 32)%nat).

Definition is_digit (c : ascii) : bool :=
  let n := nat_of_ascii c in (48 <=? n)%nat && (n <=? 57)%nat.

Definition is_upper (c : ascii) : bool :=
  let n := nat_of_ascii c in (65 <=? n)%nat && (n <=? 90)%nat.

Definition is_lower (c : ascii) : bool :=
  let n := nat_of_ascii c in (97 <=? n)%nat && (n <=? 122)%nat.

Definition lower_char (c : ascii) : ascii :=
  if is_upper c then ascii_of_nat (nat_of_ascii c + 32) else c.

Definition upper_char (c : ascii) : ascii :=
  if is_lower c then ascii_of_nat (nat_of_ascii c - 32) else c.

Fixpoint map_chars (f : ascii -> ascii) (s : string) : string :=
  match s with
  | EmptyString => EmptyString
  | String c t => String (f c) (map_chars f t)
  end.

(** [s.lower()] and [s.upper()] *)
Definition lower (s : string) : string := map_chars lower_char s.

Definition upper (s : string) : string := map_chars upper_char s.

(** [s.lstrip()], [s.rstrip()], [s.strip()] *)
Fixpoint lstrip (s : string) : string :=
  match s with
  | EmptyString => EmptyString
  | String c t => if is_space c then lstrip t else s
  end.

Fixpoint rstrip (s : string) : string :=
  match s with
  | EmptyString => EmptyString
  | String c t =>
      match rstrip t with
      | EmptyString => if is_space c then EmptyString else String c EmptyString
      | t' => String c t'
      end
  end.

Definition strip (s : string) : string := rstrip (lstrip s).

(** every character of [s] satisfies [p] *)
Fixpoint all_chars (p : ascii -> bool) (s : string) : bool :=
  match s with
  | EmptyString => true
  | String c t => p c && all_chars p t
  end.

(** [s.replace(old, new)] for a pattern [old] of one character *)
Fixpoint replace (old : ascii) (new : string) (s : string) : string :=
  match s with
  | EmptyString => EmptyString
  | String c t =>
      if Ascii.eqb c old then new ++ replace old new t
      else String c (replace old new t)
  end.

(** [sep.join(lines)] *)
Fixpoint join (sep : string) (lines : list string) : string :=
  match lines with
  | [] => EmptyString
  | [l] => l
  | l :: rest => l ++ sep ++ join sep rest
  end.

(** [str(n)] for an [int] *)
Definition of_int (n : Z) : string := NilZero.string_of_int (Z.to_int n).

(** the value of one ASCII digit *)
Definition digit_val (c : ascii) : Z := Z.of_nat (nat_of_ascii c) - 48.

(** [sys.get_int_max_str_digits()], at its default *)
Definition MAX_STR_DIGITS : Z := 4300.

(** [int(s)] on a string of ASCII digits, the only strings the agent hands
    to it: the number the digits write in base ten.  It raises [ValueError]
    on a string that is empty or has another character, and on more than
    [MAX_STR_DIGITS] digits (leading zeros count). *)
Definition int (s : string) : result Z :=
  match NilZero.uint_of_string s with
  | None => Raise ValueError
  | Some d =>
      if MAX_STR_DIGITS <? Z.of_nat (String.length s) then Raise ValueError
      else Ok (Z.of_uint d)
  end.

(** [s[i:]] for [0 <= i] *)
Fixpoint drop (i : nat) (s : string) : string :=
  match i, s with
  | O, _ => s
  | S i', String _ t => drop i' t
  | S _, EmptyString => EmptyString
  end.


Definition newline : string := String (ascii_of_nat 10) EmptyString.

End PyStr.

(* ================================================================== *)
(** * Values decoded from JSON *)

Inductive pyval : Type :=
| VNone
| VBool (b : bool)
| VInt (n : Z)
| VStr (s : string).

(** truth value of a Python object, as tested by [not v] and [v or d] *)
Definition truthy (v : pyval) : bool :=
  match v with
  | VNone => false
  | VBool b => b
  | VInt n => negb (n =? 0)
  | VStr s => negb (String.eqb s "")
  end.

(** [str(v)], also what an f-string field [{v}] renders *)
Definition str (v : pyval) : string :=
  match v with
  | VNone => "None"
  | VBool true => "True"
  | VBool false => "False"
  | VInt n => PyStr.of_int n
  | VStr s => s
  end.

(** [a or b] *)
Definition py_or (a b : pyval) : pyval := if truthy a then a else b.

(* ================================================================== *)
(** * Calendar dates: the part of [datetime] the agent uses *)

Module PyDate.

(** a [datetime.date] *)
Record date : Type := mkdate { year : Z; month : Z; day : Z }.

Definition is_leap (y : Z) : bool :=
  (y mod 4 =? 0) && (negb (y mod 100 =? 0) || (y mod 400 =? 0)).

Definition days_in_month (y m : Z) : Z :=
  if (m =? 2) && is_leap y then 29
  else match m with
       | 1 => 31 | 2 => 28 | 3 => 31 | 4 => 30 | 5 => 31 | 6 => 30
       | 7 => 31 | 8 => 31 | 9 => 30 | 10 => 31 | 11 => 30 | 12 => 31
       | _ => -1
       end.

Definition days_before_month (y m : Z) : Z :=
  match m with
  | 1 => 0 | 2 => 31 | 3 => 59 | 4 => 90 | 5 => 120 | 6 => 151
  | 7 => 181 | 8 => 212 | 9 => 243 | 10 => 273 | 11 => 304 | 12 => 334
  | _ => -1
  end + (if (2 <? m) && is_leap y then 1 else 0).

Definition days_before_year (y : Z) : Z :=
  let y' := y - 1 in y' * 365 + y' / 4 - y' / 100 + y' / 400.

(** [_ymd2ord]: 1 January of year 1 is day 1 *)
Definition ymd2ord (y m d : Z) : Z :=
  days_before_year y + days_before_month y m + d.

Definition toordinal (d : date) : Z := ymd2ord (year d) (month d) (day d).

(** the range check of the [date] constructor *)
Definition valid_date (d : date) : bool :=
  (1 <=? year d) && (year d <=? 9999) &&
  (1 <=? month d) && (month d <=? 12) &&
  (1 <=? day d) && (day d <=? days_in_month (year d) (month d)).

(** [d1 < d2]: dates compare as [(year, month, day)] triples *)
Definition date_lt (d1 d2 : date) : bool :=
  (year d1 <? year d2) ||
  ((year d1 =? year d2) &&
   ((month d1 <? month d2) ||
    ((month d1 =? month d2) && (day d1 <? day d2)))).

(** [(d1 - d2).days] *)
Definition sub_days (d1 d2 : date) : Z := toordinal d1 - toordinal d2.

(** ["%0wd" % n] for [0 <= n] *)
Fixpoint zeros (k : nat) : string :=
  match k with
  | O => EmptyString
  | S k' => String "0" (zeros k')
  end.

Definition zero_pad (w : nat) (n : Z) : string :=
  let s := PyStr.of_int n in zeros (w - String.length s) ++ s.

(** [d.isoformat()] *)
Definition isoformat (d : date) : string :=
  zero_pad 4 (year d) ++ "-" ++ zero_pad 2 (month d) ++ "-" ++ zero_pad 2 (day d).

(** a [datetime.datetime]; [utcoffset] is in microseconds *)
Record datetime : Type := mkdatetime {
  dt_date : date;
  hour : Z; minute : Z; second : Z; microsecond : Z;
  utcoffset : option Z
}.

(** [dt.date()] keeps the calendar fields as written, whatever the offset *)
Definition date_of (dt : datetime) : date := dt_date dt.

(** exactly [n] ASCII digits at the front of [s] *)
Fixpoint parse_digits (n : nat) (acc : Z) (s : string) : option (Z * string) :=
  match n with
  | O => Some (acc, s)
  | S n' =>
      match s with
      | String c t =>
          if PyStr.is_digit c
          then parse_digits n' (10 * acc + PyStr.digit_val c) t
          else None
      | EmptyString => None
      end
  end.

Definition expect (c : ascii) (s : string) : option string :=
  match s with
  | String a t => if Ascii.eqb a c then Some t else None
  | EmptyString => None
  end.

(** [YYYY-MM-DD] at the front of [s] *)
Definition parse_isoformat_date (s : string) : option (Z * Z * Z * string) :=
  match parse_digits 4 0 s with
  | None => None
  | Some (y, s1) =>
      match expect "-" s1 with
      | None => None
      | Some s2 =>
          match parse_digits 2 0 s2 with
          | None => None
          | Some (m, s3) =>
              match expect "-" s3 with
              | None => None
              | Some s4 =>
                  match parse_digits 2 0 s4 with
                  | None => None
                  | Some (d, s5) => Some (y, m, d, s5)
                  end
              end
          end
      end
  end.

(** the fraction [.fff] or [.ffffff], in microseconds *)
Definition parse_fraction (s : string) : option Z :=
  match expect "." s with
  | None => None
  | Some f =>
      match String.length f with
      | 3%nat =>
          match parse_digits 3 0 f with
          | Some (us, EmptyString) => Some (us * 1000)
          | _ => None
          end
      | 6%nat =>
          match parse_digits 6 0 f with
          | Some (us, EmptyString) => Some us
          | _ => None
          end
      | _ => None
      end
  end.

(** [HH[:MM[:SS[.fff[fff]]]]], the whole of [s] *)
Definition parse_hh_mm_ss_ff (s : string) : option (Z * Z * Z * Z) :=
  match parse_digits 2 0 s with
  | None => None
  | Some (hh, EmptyString) => Some (hh, 0, 0, 0)
  | Some (hh, s1) =>
      match expect ":" s1 with
      | None => None
      | Some s2 =>
          match parse_digits 2 0 s2 with
          | None => None
          | Some (mm, EmptyString) => Some (hh, mm, 0, 0)
          | Some (mm, s3) =>
              match expect ":" s3 with
              | None => None
              | Some s4 =>
                  match parse_digits 2 0 s4 with
                  | None => None
                  | Some (ss, EmptyString) => Some (hh, mm, ss, 0)
                  | Some (ss, s5) =>
                      match parse_fraction s5 with
                      | Some us => Some (hh, mm, ss, us)
                      | None => None
                      end
                  end
              end
          end
      end
  end.

(** split the time text at its first [+] or [-]: the clock part, and the
    sign with the offset text when there is one *)
Fixpoint split_offset (s : string) : string * option (Z * string) :=
  match s with
  | EmptyString => (EmptyString, None)
  | String c t =>
      if Ascii.eqb c "+" then (EmptyString, Some (1, t))
      else if Ascii.eqb c "-" then (EmptyString, Some (-1, t))
      else let '(a, b) := split_offset t in (String c a, b)
  end.

Definition usec (hh mm ss us : Z) : Z :=
  ((hh * 60 + mm) * 60 + ss) * 1000000 + us.

(** [+HH:MM], [+HH:MM:SS] or [+HH:MM:SS.ffffff], strictly inside one day *)
Definition parse_offset (sign : Z) (s : string) : option Z :=
  match String.length s with
  | 5%nat | 8%nat | 15%nat =>
      match parse_hh_mm_ss_ff s with
      | Some (hh, mm, ss, us) =>
          let off := usec hh mm ss us in
          if off <? usec 24 0 0 0 then Some (sign * off) else None
      | None => None
      end
  | _ => None
  end.

Definition valid_time (hh mm ss us : Z) : bool :=
  (0 <=? hh) && (hh <=? 23) && (0 <=? mm) && (mm <=? 59) &&
  (0 <=? ss) && (ss <=? 59) && (0 <=? us) && (us <=? 999999).

(** the [datetime] constructor: [ValueError] on a field out of range *)
Definition new_datetime (y m d hh mm ss us : Z) (off : option Z)
  : result datetime :=
  let dte := mkdate y m d in
  if valid_date dte && valid_time hh mm ss us
  then Ok (mkdatetime dte hh mm ss us off)
  else Raise ValueError.

(** [datetime.fromisoformat(s)], on the grammar documented for it:
    [YYYY-MM-DD[*HH[:MM[:SS[.fff[fff]]]][+HH:MM[:SS[.ffffff]]]]], where [*]
    is any single character.  A string outside the grammar, or one whose
    fields are out of range, raises [ValueError]. *)
Definition fromisoformat (s : string) : result datetime :=
  match parse_isoformat_date s with
  | None => Raise ValueError
  | Some (y, m, d, EmptyString) => new_datetime y m d 0 0 0 0 None
  | Some (y, m, d, String _sep tstr) =>
      let '(clock, off) := split_offset tstr in
      match parse_hh_mm_ss_ff clock with
      | None => Raise ValueError
      | Some (hh, mm, ss, us) =>
          match off with
          | None => new_datetime y m d hh mm ss us None
          | Some (sign, ostr) =>
              match parse_offset sign ostr with
              | None => Raise ValueError
              | Some o => new_datetime y m d hh mm ss us (Some o)
              end
          end
      end
  end.

End PyDate.
Import PyDate.

(* ================================================================== *)
(** * Dictionaries in insertion order *)

Module PyDict.

Definition dict (V : Type) : Type := list (string * V).

(** [d.get(k)] *)
Fixpoint get {V} (d : dict V) (k : string) : option V :=
  match d with
  | [] => None
  | (k', v) :: rest => if String.eqb k' k then Some v else get rest k
  end.

(** [k in d] *)
Definition mem {V} (d : dict V) (k : string) : bool :=
  match get d k with Some _ => true | None => false end.

(** [d[k]] *)
Definition getitem {V} (d : dict V) (k : string) : result V :=
  match get d k with Some v => Ok v | None => Raise (KeyError k) end.

(** [d[k] = v]: a key already present keeps its place and takes the new
    value, a new key goes to the end *)
Fixpoint setitem {V} (d : dict V) (k : string) (v : V) : dict V :=
  match d with
  | [] => [(k, v)]
  | (k', v') :: rest =>
      if String.eqb k' k then (k', v) :: rest else (k', v') :: setitem rest k v
  end.

(** [d.keys()], in iteration order *)
Definition keys {V} (d : dict V) : list string := map fst d.

End PyDict.
Import PyDict.

(* ================================================================== *)
(** * Sorting *)

(** the place of [x] in a list sorted on [key]: in front of the first
    element it does not have to follow *)
Fixpoint insert_by {A} (key : A -> Z) (reverse : bool) (x : A) (l : list A)
  : list A :=
  match l with
  | [] => [x]
  | y :: t =>
      if (if reverse then key y <=? key x else key x <=? key y)
      then x :: y :: t
      else y :: insert_by key reverse x t
  end.

(** [l.sort(key=key, reverse=reverse)]: a stable sort, also when reversed *)
Definition list_sort {A} (key : A -> Z) (reverse : bool) (l : list A) : list A :=
  fold_right (insert_by key reverse) [] l.

(** the keys of a sort are computed for every element, from left to right,
    before anything is compared; a key that raises ends the sort *)
Fixpoint decorate {A} (key : A -> result Z) (l : list A)
  : result (list (Z * A)) :=
  match l with
  | [] => Ok []
  | x :: t =>
      k <- key x ;;
      rest <- decorate key t ;;
      Ok ((k, x) :: rest)
  end.

(** [l.sort(key=key, reverse=reverse)] for a key function that can raise *)
Definition sort_with_key {A} (key : A -> result Z) (reverse : bool)
    (l : list A) : result (list A) :=
  keyed <- decorate key l ;;
  Ok (map snd (list_sort fst reverse keyed)).

(* ================================================================== *)
(** * The sheet document *)

Record Column : Type := mkColumn {
  title : string;
  id : Z;
  primary : bool            (* [c.get("primary")] as a truth value *)
}.

(** a cell object; [None] is a key that [cell.get] does not find, and a key
    holding JSON [null] is [Some VNone] *)
Record Cell : Type := mkCell {
  columnId : option Z;
  value : option pyval;
  displayValue : option pyval
}.

Record Row : Type := mkRow { cells : list Cell }.

Record Sheet : Type := mkSheet { columns : list Column; rows : list Row }.

(** the process state outside the arguments: the [TIMEZONE] setting and the
    calendar date the system clock shows in a named zone, [None] for a name
    [pytz] does not know (the empty name is one) *)
Record World : Type := mkWorld {
  TIMEZONE : string;
  now_date_in : string -> option date
}.

Record MilestoneSet : Type := mkSet {
  label : string;
  title_id : Z;
  date_id : Z;
  status_id : Z
}.

Record Hit : Type := mkHit {
  milestone : pyval;
  hit_label : string;
  due : string;
  days : Z;
  status : pyval
}.

Record ProjectResult : Type := mkResult {
  project : pyval;
  hits : list Hit
}.

(* ================================================================== *)
(** * The agent *)

Definition COMPLETED_VALUES : list string :=
  ["completed"; "complete"; "done"; "closed"; "100%"].

(** [s in COMPLETED_VALUES] *)
Definition in_completed (s : string) : bool :=
  existsb (String.eqb s) COMPLETED_VALUES.

Definition get_today_local (w : World) : result date :=
  match now_date_in w (TIMEZONE w) with
  | Some d => Ok d
  | None => Raise (UnknownTimeZoneError (TIMEZONE w))
  end.

Definition column_step (acc : dict Z * dict Z * option Z) (c : Column)
  : dict Z * dict Z * option Z :=
  let '(title_to_id, norm_to_id, primary_col_id) := acc in
  (setitem title_to_id (title c) (id c),
   setitem norm_to_id (PyStr.lower (PyStr.strip (title c))) (id c),
   if primary c then Some (id c) else primary_col_id).

Definition build_column_maps (sheet : Sheet) : dict Z * dict Z * option Z :=
  fold_left column_step (columns sheet) ([], [], None).

Definition opt_Z_eqb (a b : option Z) : bool :=
  match a, b with
  | Some x, Some y => x =? y
  | None, None => true
  | _, _ => false
  end.

Fixpoint cell_value_in (cs : list Cell) (col_id : option Z) : pyval :=
  match cs with
  | [] => VNone
  | cell :: rest =>
      if opt_Z_eqb (columnId cell) col_id then
        match value cell with
        | Some v => v
        | None =>
            match displayValue cell with
            | Some v => v
            | None => VNone
            end
        end
      else cell_value_in rest col_id
  end.

Definition cell_value (row : Row) (col_id : option Z) : pyval :=
  cell_value_in (cells row) col_id.

Definition parse_date (val : pyval) : option date :=
  if negb (truthy val) then None
  else
    try_or_none
      (let s := PyStr.replace "Z" "+00:00" (str val) in
       d <- fromisoformat s ;;
       Ok (date_of d)).

Definition normalize_status (val : pyval) : string :=
  match val with
  | VNone => ""
  | _ => PyStr.lower (PyStr.strip (str val))
  end.

(** the longest run of digits at the front of [s] *)
Fixpoint span_digits (s : string) : string * string :=
  match s with
  | EmptyString => (EmptyString, EmptyString)
  | String c t =>
      if PyStr.is_digit c
      then let '(ds, rest) := span_digits t in (String c ds, rest)
      else (EmptyString, s)
  end.

(** [base_re.match(s)] for [base_re = re.compile(r"^m(\d+)$")]: group 1 when
    the pattern matches.  Without [re.MULTILINE], [$] matches at the end of
    the string and also just before a newline that ends it. *)
Definition base_re_match (s : string) : option string :=
  match s with
  | String "m" rest =>
      let '(n, tail) := span_digits rest in
      if negb (String.eqb n "") &&
         (String.eqb tail "" || String.eqb tail PyStr.newline)
      then Some n else None
  | _ => None
  end.

Definition detect_step (norm_to_id : dict Z)
    (acc : result (list MilestoneSet)) (norm_title : string)
  : result (list MilestoneSet) :=
  sets <- acc ;;
  match base_re_match norm_title with
  | None => Ok sets
  | Some n =>
      let base := "m" ++ n in
      let date_key := base ++ " date" in
      let status_key := base ++ " status" in
      if mem norm_to_id date_key && mem norm_to_id status_key then
        t <- getitem norm_to_id base ;;
        d <- getitem norm_to_id date_key ;;
        s <- getitem norm_to_id status_key ;;
        Ok (sets ++ [mkSet ("M" ++ n)%string t d s])%list
      else Ok sets
  end.

(** the sort key [int(x["label"][1:])] *)
Definition label_number (x : MilestoneSet) : result Z :=
  PyStr.int (PyStr.drop 1 (label x)).

Definition detect_milestone_sets (norm_to_id : dict Z)
  : result (list MilestoneSet) :=
  sets <- fold_left (detect_step norm_to_id) (keys norm_to_id) (Ok []) ;;
  sort_with_key label_number false sets.

(** one pass of the inner loop: the hit appended for [ms], if any *)
Definition milestone_hit (today : date) (row : Row) (ms : MilestoneSet)
  : option Hit :=
  let title := py_or (cell_value row (Some (title_id ms))) (VStr (label ms)) in
  let due_val := cell_value row (Some (date_id ms)) in
  let status_val := cell_value row (Some (status_id ms)) in
  match parse_date due_val with
  | None => None
  | Some due_dt =>
      if date_lt due_dt today && negb (in_completed (normalize_status status_val))
      then Some (mkHit title (label ms) (isoformat due_dt)
                       (sub_days today due_dt) status_val)
      else None
  end.

Definition hits_step (today : date) (row : Row) (hits : list Hit)
    (ms : MilestoneSet) : list Hit :=
  match milestone_hit today row ms with
  | Some h => (hits ++ [h])%list
  | None => hits
  end.

(** the hits of one row before they are sorted, in schema order *)
Definition row_hits (today : date) (milestone_sets : list MilestoneSet)
    (row : Row) : list Hit :=
  fold_left (hits_step today row) milestone_sets [].

Definition UNNAMED : string := "(Unnamed Project)".

Definition row_step (today : date) (primary_col_id : option Z)
    (milestone_sets : list MilestoneSet)
    (results : list ProjectResult) (row : Row) : list ProjectResult :=
  let project := py_or (cell_value row primary_col_id) (VStr UNNAMED) in
  let hits := row_hits today milestone_sets row in
  match hits with
  | [] => results
  | _ :: _ => (results ++ [mkResult project (list_sort days true hits)])%list
  end.

(** the sort key [r["hits"][0]["days"]]; every result the loop appends has
    a first hit *)
Definition top_days (r : ProjectResult) : Z :=
  match hits r with
  | h :: _ => days h
  | [] => 0
  end.

Definition NO_MILESTONES : string :=
  "No milestone columns found (expected M1 / M1 date / M1 Status pattern).".

Definition find_past_due_milestones (sheet : Sheet) (w : World)
  : result (list ProjectResult) :=
  let '(_, norm_to_id, primary_col_id) := build_column_maps sheet in
  today <- get_today_local w ;;
  milestone_sets <- detect_milestone_sets norm_to_id ;;
  match milestone_sets with
  | [] => Raise (RuntimeError NO_MILESTONES)
  | _ :: _ =>
      let results :=
        fold_left (row_step today primary_col_id milestone_sets)
                  (rows sheet) [] in
      Ok (list_sort top_days true results)
  end.

Definition CELEBRATION : string :=
  "No past-due incomplete milestones found 🎉".

Definition hit_line (h : Hit) : string :=
  "   - " ++ str (milestone h) ++ " (" ++ hit_label h ++ ") | Due: "
  ++ due h ++ " | " ++ "Overdue: " ++ PyStr.of_int (days h)
  ++ "d | Status: " ++ str (status h).

Definition project_lines (lines : list string) (r : ProjectResult)
  : list string :=
  let lines := (lines ++ [("• " ++ str (project r))%string])%list in
  let lines := fold_left (fun ls h => (ls ++ [hit_line h])%list) (hits r) lines in
  (lines ++ [""])%list.

Definition total_hits (results : list ProjectResult) : Z :=
  fold_left (fun acc r => acc + Z.of_nat (List.length (hits r))) results 0.

Definition format_summary (results : list ProjectResult) : string :=
  match results with
  | [] => CELEBRATION
  | _ :: _ =>
      let total := total_hits results in
      let lines :=
        ["Past-due milestones (not completed): " ++ PyStr.of_int total;
         "Projects impacted: " ++ PyStr.of_int (Z.of_nat (List.length results));
         ""] in
      let lines := fold_left project_lines results lines in
      PyStr.strip (PyStr.join PyStr.newline lines)
  end.

(** a name as [build_column_maps] files it: trimmed and lower-cased *)
Definition normalized (k : string) : Prop :=
  PyStr.lower (PyStr.strip k) = k.

(** a non-empty string of ASCII digits *)
Definition is_number (n : string) : Prop :=
  n <> "" /\ PyStr.all_chars PyStr.is_digit n = true.

(** the value a matched cell stands for: [value] when the key is there,
    else [displayValue] when that key is there, else [None] *)
Definition effective (cell : Cell) : pyval :=
  match value cell, displayValue cell with
  | Some v, _ => v
  | None, Some v => v
  | None, None => VNone
  end.

Definition opt_list {A} (o : option A) : list A :=
  match o with Some a => [a] | None => [] end.

(** the result a row contributes, if it has a hit *)
Definition row_result (today : date) (primary_col_id : option Z)
    (milestone_sets : list MilestoneSet) (row : Row) : option ProjectResult :=
  match row_step today primary_col_id milestone_sets [] row with
  | r :: _ => Some r
  | [] => None
  end.

(** in a list sorted on [key], [a] may stand in front of [b] *)
Definition in_order {A} (key : A -> Z) (reverse : bool) (a b : A) : Prop :=
  if reverse then key b <= key a else key a <= key b.

(** the schema entry a key of the name map gives rise to, if any: the body
    of the loop of [detect_milestone_sets] for a key whose base name is in
    the map *)
Definition candidate (norm_to_id : dict Z) (norm_title : string)
  : list MilestoneSet :=
  match base_re_match norm_title with
  | None => []
  | Some n =>
      let base := "m" ++ n in
      match get norm_to_id base,
            get norm_to_id (base ++ " date"),
            get norm_to_id (base ++ " status") with
      | Some t, Some d, Some s => [mkSet ("M" ++ n) t d s]
      | _, _, _ => []
      end
  end.

(** the name map of a sheet *)
Definition norm_to_id_of (sheet : Sheet) : dict Z :=
  snd (fst (build_column_maps sheet)).

Definition primary_col_id_of (sheet : Sheet) : option Z :=
  snd (build_column_maps sheet).

(** the results of the rows, in row order, before the final sort *)
Definition results_in_row_order (today : date) (primary_col_id : option Z)
    (milestone_sets : list MilestoneSet) (rs : list Row)
  : list ProjectResult :=
  flat_map (fun row =>
              opt_list (row_result today primary_col_id milestone_sets row)) rs.

(** ** Sample documents *)

Definition text_cell (col : Z) (s : string) : Cell :=
  mkCell (Some col) (Some (VStr s)) None.

Definition demo_columns : list Column :=
  [mkColumn "Project" 1 true; mkColumn "M1" 2 false;
   mkColumn "M1 Date" 3 false; mkColumn "M1 Status" 4 false].

Definition demo_row : Row :=
  mkRow [text_cell 1 "Alpha"; text_cell 2 "Kickoff";
         text_cell 3 "2020-01-01"; text_cell 4 "Open"].

Definition demo_sheet : Sheet := mkSheet demo_columns [demo_row].

Definition demo_set : MilestoneSet := mkSet "M1" 2 3 4.

Definition demo_today : date := mkdate 2020 1 10.

Definition demo_world : World :=
  mkWorld "America/Denver" (fun _ => Some demo_today).

(** a name map with the columns of [m10], [m2] and [m1], in that order,
    and a lone [m5] with its date column only *)
Definition demo_names : dict Z :=
  [("project", 1);
   ("m10", 2); ("m10 date", 3); ("m10 status", 4);
   ("m2", 5); ("m2 date", 6); ("m2 status", 7);
   ("m1", 8); ("m1 date", 9); ("m1 status", 10);
   ("m5", 11); ("m5 date", 12)].

(** two milestone triples and three rows: in the first row [M2] is further
    overdue than [M1], in the second both are nine days overdue, the third
    has the oldest date *)
Definition tie_columns : list Column :=
  [mkColumn "Project" 1 true;
   mkColumn "M1" 2 false; mkColumn "M1 Date" 3 false;
   mkColumn "M1 Status" 4 false;
   mkColumn "M2" 5 false; mkColumn "M2 Date" 6 false;
   mkColumn "M2 Status" 7 false].

Definition tie_sheet : Sheet :=
  mkSheet tie_columns
    [mkRow [text_cell 1 "A"; text_cell 3 "2020-01-05"; text_cell 6 "2020-01-01"];
     mkRow [text_cell 1 "B"; text_cell 3 "2020-01-01"; text_cell 6 "2020-01-01"];
     mkRow [text_cell 1 "C"; text_cell 3 "2019-12-31"]].

Definition tie_results : list ProjectResult :=
  [mkResult (VStr "C") [mkHit (VStr "M1") "M1" "2019-12-31" 10 VNone];
   mkResult (VStr "A") [mkHit (VStr "M2") "M2" "2020-01-01" 9 VNone;
                        mkHit (VStr "M1") "M1" "2020-01-05" 5 VNone];
   mkResult (VStr "B") [mkHit (VStr "M1") "M1" "2020-01-01" 9 VNone;
                        mkHit (VStr "M2") "M2" "2020-01-01" 9 VNone]].

(** the lines [format_summary] writes for one project *)
Definition project_block (r : ProjectResult) : list string :=
  ("• " ++ str (project r)) :: (map hit_line (hits r) ++ [""])%list.

(** the same zone on the day the sample milestone is due *)
Definition due_day_world : World :=
  mkWorld "America/Denver" (fun _ => Some (mkdate 2020 1 1)).

(** the sample row with an empty string as the project name *)
Definition blank_name_row : Row :=
  mkRow [text_cell 1 ""; text_cell 2 "Kickoff";
         text_cell 3 "2020-01-01"; text_cell 4 "Open"].

(** ** The column maps *)

(** the name [build_column_maps] files a column under in [norm_to_id] *)
Definition norm_title (c : Column) : string :=
  PyStr.lower (PyStr.strip (title c)).

(** the title map of a sheet *)
Definition title_to_id_of (sheet : Sheet) : dict Z :=
  fst (fst (build_column_maps sheet)).

(** the last element of a list that satisfies [p] *)
Fixpoint find_last {A} (p : A -> bool) (l : list A) : option A :=
  match l with
  | [] => None
  | x :: t =>
      match find_last p t with
      | Some y => Some y
      | None => if p x then Some x else None
      end
  end.

(** ** The schema detector on arbitrary maps *)

(** the key [k] matches the pattern with digits [n] and has both companion
    names in the map, but the base name [m<n>] itself is not a key *)
Definition dangling (d : dict Z) (k n : string) : Prop :=
  base_re_match k = Some n /\
  mem d (("m" ++ n) ++ " date") = true /\
  mem d (("m" ++ n) ++ " status") = true /\
  mem d ("m" ++ n) = false.

(** ** Printing and reading back numbers of fixed width *)

(** [zero_pad w n] is [w] digits that read back as [n] *)
Definition pad_ok (w : nat) (n : Z) : bool :=
  match parse_digits w 0 (zero_pad w n) with
  | Some (v, EmptyString) => v =? n
  | _ => false
  end.

(** the integers from [lo] on, [len] of them *)
Definition Z_range (lo len : Z) : list Z :=
  map (fun i => lo + Z.of_nat i) (seq 0 (Z.to_nat len)).

(** a character other than the two signs that start an offset *)
Definition no_sign (c : ascii) : bool :=
  negb (Ascii.eqb c "+") && negb (Ascii.eqb c "-").

(** [HH:MM:SS] *)
Definition clock_text (hh mm ss : Z) : string :=
  zero_pad 2 hh ++ ":" ++ zero_pad 2 mm ++ ":" ++ zero_pad 2 ss.

(* ================================================================== *)
(** * The process around the evaluator: configuration, network, output *)

(** what [requests] gives back for a request: no response at all (it raises
    a connection error, a timeout, an invalid URL), or a response with its
    status code and the document its body decodes to, if it is JSON *)
Inductive reply : Type :=
| NoResponse
| Response (status_code : Z) (json : option Sheet).

(** how a run can fail: an exception of the evaluator or of [main], or one
    of the exceptions of [requests] *)
Inductive failure : Type :=
| Exn (e : exn)
| RequestException
| HTTPError (status_code : Z)
| JSONDecodeError.

(** what a run does to the outside, in order *)
Inductive io_event : Type :=
| Get (url : string) (headers : list (string * string)) (timeout : Z)
| Post (url : string) (text : string) (timeout : Z)
| Print (text : string).

(** the environment variables read when the module is loaded, the clock,
    and the answers of the network to a GET (by URL and headers) and to a
    POST (by URL and text) *)
Record Process : Type := mkProcess {
  SMARTSHEET_TOKEN : option string;
  SHEET_ID : option string;
  getenv_SLACK_WEBHOOK_URL : option string;
  world : World;
  http_get : string -> list (string * string) -> reply;
  http_post : string -> string -> reply
}.

(** [os.getenv("SLACK_WEBHOOK_URL", "").strip()] *)
Definition SLACK_WEBHOOK_URL (p : Process) : string :=
  PyStr.strip (match getenv_SLACK_WEBHOOK_URL p with
               | Some s => s
               | None => ""
               end).

Definition BASE_URL : string := "https://api.smartsheet.com/2.0".

Inductive outcome (A : Type) : Type :=
| Done (a : A)
| Failed (f : failure).
Arguments Done {A} a.
Arguments Failed {A} f.

(** a computation with effects: the events it caused, and how it ended *)
Definition io (A : Type) : Type := (list io_event * outcome A)%type.

Definition io_ret {A} (a : A) : io A := ([], Done a).

Definition io_raise {A} (f : failure) : io A := ([], Failed f).

Definition io_bind {A B} (m : io A) (k : A -> io B) : io B :=
  match m with
  | (t, Done a) => let '(t', r) := k a in ((t ++ t')%list, r)
  | (t, Failed f) => (t, Failed f)
  end.

Definition emit (e : io_event) : io unit := ([e], Done tt).

Definition lift_result {A} (r : result A) : io A :=
  match r with
  | Ok a => io_ret a
  | Raise e => io_raise (Exn e)
  end.

Notation "x <~ c ;; k" := (io_bind c (fun x => k))
  (at level 61, c at next level, right associativity).

(** an environment variable in an f-string, and as a truth value *)
Definition opt_str (o : option string) : string :=
  match o with Some s => s | None => "None" end.

Definition opt_truthy (o : option string) : bool :=
  match o with Some s => negb (String.eqb s "") | None => false end.

Definition smartsheet_headers (p : Process) : list (string * string) :=
  [("Authorization", "Bearer " ++ opt_str (SMARTSHEET_TOKEN p));
   ("Content-Type", "application/json")].

(** [r.raise_for_status()] raises on the client and server error codes *)
Definition is_error_status (code : Z) : bool :=
  (400 <=? code) && (code <? 600).

Definition fetch_sheet (p : Process) (sheet_id : string) : io Sheet :=
  let url := BASE_URL ++ "/sheets/" ++ sheet_id in
  _ <~ emit (Get url (smartsheet_headers p) 30) ;;
  match http_get p url (smartsheet_headers p) with
  | NoResponse => io_raise RequestException
  | Response code body =>
      if is_error_status code then io_raise (HTTPError code)
      else match body with
           | Some sheet => io_ret sheet
           | None => io_raise JSONDecodeError
           end
  end.

Definition post_to_slack (p : Process) (text : string) : io unit :=
  if String.eqb (SLACK_WEBHOOK_URL p) "" then io_ret tt
  else
    _ <~ emit (Post (SLACK_WEBHOOK_URL p) text 20) ;;
    match http_post p (SLACK_WEBHOOK_URL p) text with
    | NoResponse => io_raise RequestException
    | Response _ _ => io_ret tt
    end.

Definition MISSING_CONFIG : string :=
  "Missing SMARTSHEET_TOKEN or SMARTSHEET_SHEET_ID.".

Definition main (p : Process) : io unit :=
  if negb (opt_truthy (SMARTSHEET_TOKEN p)) || negb (opt_truthy (SHEET_ID p))
  then io_raise (Exn (RuntimeError MISSING_CONFIG))
  else
    sheet <~ fetch_sheet p (opt_str (SHEET_ID p)) ;;
    results <~ lift_result (find_past_due_milestones sheet (world p)) ;;
    let summary := format_summary results in
    _ <~ emit (Print summary) ;;
    post_to_slack p summary.

(** the request [main] sends for the sheet *)
Definition sheet_url (p : Process) : string :=
  BASE_URL ++ "/sheets/" ++ opt_str (SHEET_ID p).

(** the document a run works on, when the request for it succeeds *)
Definition fetched (p : Process) : option Sheet :=
  match http_get p (sheet_url p) (smartsheet_headers p) with
  | Response code (Some sheet) =>
      if is_error_status code then None else Some sheet
  | _ => None
  end.

(** a sample process: the demo sheet behind the API, a webhook that answers
    with a server error *)
Definition demo_process : Process :=
  mkProcess (Some "token") (Some "42") (Some " https://hooks.example/T1 ")
            demo_world
            (fun _ _ => Response 200 (Some demo_sheet))
            (fun _ _ => Response 500 None).

(** ** Sort keys, time zones and long numbers *)

(** the number a sort key evaluates to, when it does *)
Definition key_value {A} (key : A -> result Z) (x : A) : Z :=
  match key x with Ok z => z | Raise _ => 0 end.

(** the key [key] does not raise on [x] *)
Definition key_ok {A} (key : A -> result Z) (x : A) : Prop :=
  exists z, key x = Ok z.





(** ** [parseDate] as the specification words it *)



(* ================================================================== *)
(** * Strings: trimming and case *)

Section StringFacts.
Import PyStr.

Lemma is_space_lower_char c : is_space (lower_char c) = is_space c.
Proof. destruct c as [[] [] [] [] [] [] [] []]; reflexivity. Qed.

Lemma is_space_upper_char c : is_space (upper_char c) = is_space c.
Proof. destruct c as [[] [] [] [] [] [] [] []]; reflexivity. Qed.

Lemma lower_upper_char c : lower_char (upper_char c) = lower_char c.
Proof. destruct c as [[] [] [] [] [] [] [] []]; reflexivity. Qed.

Lemma lower_lower_char c : lower_char (lower_char c) = lower_char c.
Proof. destruct c as [[] [] [] [] [] [] [] []]; reflexivity. Qed.

Lemma map_chars_length f s : String.length (map_chars f s) = String.length s.
Proof. induction s; simpl; congruence. Qed.

Lemma map_chars_compose f g h s :
  (forall c, f (g c) = h c) -> map_chars f (map_chars g s) = map_chars h s.
Proof. intros E; induction s; simpl; [reflexivity | now rewrite E, IHs]. Qed.

Lemma lower_upper s : lower (upper s) = lower s.
Proof. apply map_chars_compose, lower_upper_char. Qed.

Lemma lower_lower s : lower (lower s) = lower s.
Proof. apply map_chars_compose, lower_lower_char. Qed.

Lemma lstrip_map_chars f s :
  (forall c, is_space (f c) = is_space c) ->
  lstrip (map_chars f s) = map_chars f (lstrip s).
Proof.
  intros E; induction s as [|c t IH]; simpl; [reflexivity|].
  rewrite E. destruct (is_space c); [exact IH | reflexivity].
Qed.

Lemma rstrip_map_chars f s :
  (forall c, is_space (f c) = is_space c) ->
  rstrip (map_chars f s) = map_chars f (rstrip s).
Proof.
  intros E; induction s as [|c t IH]; simpl; [reflexivity|].
  rewrite IH, E. destruct (rstrip t); simpl; [|reflexivity].
  destruct (is_space c); reflexivity.
Qed.

Lemma strip_map_chars f s :
  (forall c, is_space (f c) = is_space c) ->
  strip (map_chars f s) = map_chars f (strip s).
Proof.
  intros E. unfold strip. now rewrite lstrip_map_chars, rstrip_map_chars.
Qed.

Lemma lstrip_spaces_app ws s :
  all_chars is_space ws = true -> lstrip (ws ++ s) = lstrip s.
Proof.
  induction ws as [|c t IH]; simpl; [reflexivity|].
  intros H. apply andb_true_iff in H as [Hc Ht]. rewrite Hc. auto.
Qed.

Lemma rstrip_spaces ws : all_chars is_space ws = true -> rstrip ws = "".
Proof.
  induction ws as [|c t IH]; simpl; [reflexivity|].
  intros H. apply andb_true_iff in H as [Hc Ht]. now rewrite IH, Hc.
Qed.

Lemma rstrip_app_spaces s ws :
  all_chars is_space ws = true -> rstrip (s ++ ws) = rstrip s.
Proof.
  intros H. induction s as [|c t IH]; simpl.
  - now apply rstrip_spaces.
  - now rewrite IH.
Qed.

Lemma lstrip_spaces ws : all_chars is_space ws = true -> lstrip ws = "".
Proof.
  induction ws as [|c t IH]; simpl; [reflexivity|].
  intros H. apply andb_true_iff in H as [Hc Ht]. rewrite Hc. auto.
Qed.

Lemma lstrip_app s post :
  lstrip (s ++ post) =
  match lstrip s with "" => lstrip post | _ => lstrip s ++ post end.
Proof.
  induction s as [|c t IH]; simpl.
  - now destruct (lstrip post).
  - destruct (is_space c); [exact IH | reflexivity].
Qed.

Lemma strip_padded pre s post :
  all_chars is_space pre = true -> all_chars is_space post = true ->
  strip (pre ++ s ++ post) = strip s.
Proof.
  intros Hpre Hpost. unfold strip. rewrite lstrip_spaces_app by assumption.
  rewrite lstrip_app. destruct (lstrip s) eqn:E.
  - now rewrite lstrip_spaces.
  - now rewrite rstrip_app_spaces.
Qed.

Lemma rstrip_length s : (String.length (rstrip s) <= String.length s)%nat.
Proof.
  induction s as [|c t IH]; simpl; [lia|].
  destruct (rstrip t); simpl in *; [destruct (is_space c); simpl; lia | lia].
Qed.

Lemma lstrip_length s : (String.length (lstrip s) <= String.length s)%nat.
Proof.
  induction s as [|c t IH]; simpl; [lia|].
  destruct (is_space c); simpl; lia.
Qed.

Lemma app_empty_r s : s ++ "" = s.
Proof. induction s; simpl; congruence. Qed.

Lemma app_assoc_str s t u : (s ++ t) ++ u = s ++ t ++ u.
Proof. induction s; simpl; congruence. Qed.

Lemma app_length s t :
  String.length (s ++ t) = (String.length s + String.length t)%nat.
Proof. induction s; simpl; congruence. Qed.

(** a string that ends in white space is changed by [strip] *)
Lemma strip_shortens s c :
  is_space c = true ->
  (String.length (strip (s ++ String c "")) < String.length (s ++ String c ""))%nat.
Proof.
  intros Hc. unfold strip. rewrite lstrip_app.
  assert (Hs := lstrip_length s). rewrite app_length. simpl.
  destruct (lstrip s) eqn:E.
  - simpl. rewrite Hc. simpl. lia.
  - rewrite rstrip_app_spaces by (simpl; now rewrite Hc).
    assert (H := rstrip_length (String a s0)). lia.
Qed.

Lemma normalized_no_trailing_space s c :
  is_space c = true -> ~ normalized (s ++ String c "").
Proof.
  intros Hc N. unfold normalized, lower in N.
  assert (L := strip_shortens s c Hc).
  rewrite <- N in L at 2. rewrite map_chars_length in L. lia.
Qed.

Lemma rstrip_head c t :
  rstrip (String c t) = "" \/ exists t', rstrip (String c t) = String c t'.
Proof.
  simpl. destruct (rstrip t); [destruct (is_space c)|]; eauto.
Qed.

Lemma rstrip_rstrip s : rstrip (rstrip s) = rstrip s.
Proof.
  induction s as [|c t IH]; simpl; [reflexivity|].
  destruct (rstrip t) eqn:E.
  - destruct (is_space c) eqn:Hc; simpl; [reflexivity | now rewrite Hc].
  - change (rstrip (String c (String a s))) with
      (match rstrip (String a s) with
       | "" => if is_space c then "" else String c ""
       | t' => String c t' end).
    now rewrite IH.
Qed.

Lemma lstrip_fixed s :
  match s with "" => True | String c _ => is_space c = false end ->
  lstrip s = s.
Proof. destruct s; simpl; [reflexivity | now intros ->]. Qed.

Lemma lstrip_head s :
  match lstrip s with "" => True | String c _ => is_space c = false end.
Proof.
  induction s as [|c t IH]; simpl; [exact I|].
  destruct (is_space c) eqn:E; [exact IH | exact E].
Qed.

Lemma strip_strip s : strip (strip s) = strip s.
Proof.
  unfold strip. assert (H := lstrip_head s).
  destruct (lstrip s) as [|c t] eqn:E; [reflexivity|].
  destruct (rstrip_head c t) as [-> | [t' Ht]]; [reflexivity|].
  rewrite Ht, lstrip_fixed by exact H. now rewrite <- Ht, rstrip_rstrip.
Qed.

(** what [build_column_maps] files a title under is a normalized name *)
Lemma normalized_lower_strip t : normalized (lower (strip t)).
Proof.
  unfold normalized, lower.
  rewrite strip_map_chars by apply is_space_lower_char.
  rewrite strip_strip. apply lower_lower.
Qed.

End StringFacts.

(* ================================================================== *)
(** * Dates: ordinals follow the calendar order *)

Section DateFacts.

Lemma days_before_year_next y :
  days_before_year (y + 1)
  = days_before_year y + (if is_leap y then 366 else 365).
Proof.
  unfold days_before_year, is_leap.
  replace (y + 1 - 1) with y by lia.
  destruct (y mod 4 =? 0) eqn:E4; destruct (y mod 100 =? 0) eqn:E100;
    destruct (y mod 400 =? 0) eqn:E400; simpl;
    rewrite ?Z.eqb_eq, ?Z.eqb_neq in *;
    Z.div_mod_to_equations; lia.
Qed.

Lemma days_before_year_mono y1 y2 :
  y1 <= y2 -> days_before_year y1 <= days_before_year y2.
Proof.
  unfold days_before_year. intros H. Z.div_mod_to_equations. lia.
Qed.

Lemma valid_date_fields d :
  valid_date d = true ->
  1 <= year d <= 9999 /\ 1 <= month d <= 12 /\
  1 <= day d <= days_in_month (year d) (month d).
Proof.
  unfold valid_date. rewrite !andb_true_iff, !Z.leb_le. lia.
Qed.

Ltac month_cases m :=
  let H := fresh in
  assert (H : m = 1 \/ m = 2 \/ m = 3 \/ m = 4 \/ m = 5 \/ m = 6 \/
              m = 7 \/ m = 8 \/ m = 9 \/ m = 10 \/ m = 11 \/ m = 12)
    by lia;
  repeat (destruct H as [H | H]); subst m.

Lemma month_in_year y m :
  1 <= m <= 12 ->
  0 <= days_before_month y m /\
  days_before_month y m + days_in_month y m
  <= (if is_leap y then 366 else 365).
Proof.
  intros Hm. unfold days_before_month, days_in_month.
  month_cases m; destruct (is_leap y); split; apply Z.leb_le; reflexivity.
Qed.

Lemma month_before_month y m1 m2 :
  1 <= m1 -> m1 < m2 -> m2 <= 12 ->
  days_before_month y m1 + days_in_month y m1 <= days_before_month y m2.
Proof.
  intros H1 H12 H2. unfold days_before_month, days_in_month.
  assert (Hm1 : 1 <= m1 <= 12) by lia. assert (Hm2 : 1 <= m2 <= 12) by lia.
  month_cases m1; month_cases m2; try lia;
    destruct (is_leap y); apply Z.leb_le; reflexivity.
Qed.

(** the day number inside its year *)
Lemma day_of_year_bounds y m d :
  1 <= m <= 12 -> 1 <= d <= days_in_month y m ->
  1 <= days_before_month y m + d <= (if is_leap y then 366 else 365).
Proof.
  intros Hm Hd. destruct (month_in_year y m Hm). lia.
Qed.

Lemma month_end_before_next y m1 m2 d :
  1 <= m1 -> m1 < m2 -> m2 <= 12 -> d <= days_in_month y m1 ->
  days_before_month y m1 + d <= days_before_month y m2.
Proof.
  intros H1 H12 H2 Hd. assert (Q := month_before_month y m1 m2 H1 H12 H2).
  lia.
Qed.

(** [date.__lt__] agrees with the order of ordinals on real dates *)
Lemma toordinal_lt d1 d2 :
  valid_date d1 = true -> valid_date d2 = true ->
  date_lt d1 d2 = true -> toordinal d1 < toordinal d2.
Proof.
  intros V1 V2 L.
  apply valid_date_fields in V1 as (Y1 & M1 & D1).
  apply valid_date_fields in V2 as (Y2 & M2 & D2).
  unfold toordinal, ymd2ord. unfold date_lt in L.
  assert (B1 := day_of_year_bounds _ _ _ M1 D1).
  assert (B2 := day_of_year_bounds _ _ _ M2 D2).
  apply orb_true_iff in L as [L | L].
  - apply Z.ltb_lt in L.
    assert (S := days_before_year_next (year d1)).
    assert (Mo := days_before_year_mono (year d1 + 1) (year d2)).
    lia.
  - apply andb_true_iff in L as [E L]. apply Z.eqb_eq in E. rewrite E in *.
    apply orb_true_iff in L as [L | L].
    + apply Z.ltb_lt in L.
      assert (Q := month_end_before_next (year d2) (month d1) (month d2)
                                         (day d1)).
      lia.
    + apply andb_true_iff in L as [E' L]. apply Z.eqb_eq in E'.
      apply Z.ltb_lt in L. rewrite E'. lia.
Qed.

Lemma new_datetime_valid y m d hh mm ss us off dt :
  new_datetime y m d hh mm ss us off = Ok dt ->
  valid_date (date_of dt) = true.
Proof.
  unfold new_datetime.
  destruct (valid_date (mkdate y m d)) eqn:V; simpl; [|discriminate].
  destruct (valid_time hh mm ss us); [|discriminate].
  intros [= <-]. exact V.
Qed.

(** the parser only returns dates that exist *)
Lemma fromisoformat_valid s dt :
  fromisoformat s = Ok dt -> valid_date (date_of dt) = true.
Proof.
  unfold fromisoformat. intros H.
  repeat match type of H with
         | context [match ?x with _ => _ end] => destruct x eqn:?
         end;
    try discriminate; eauto using new_datetime_valid.
Qed.

Lemma parse_date_valid v d : parse_date v = Some d -> valid_date d = true.
Proof.
  unfold parse_date. destruct (negb (truthy v)); [discriminate|].
  destruct (fromisoformat _) as [dt|e] eqn:E; simpl; [|discriminate].
  intros [= <-]. eauto using fromisoformat_valid.
Qed.

End DateFacts.

(* ================================================================== *)
(** * Sorting: [list_sort] orders, permutes and is stable *)

Section SortFacts.
Context {A : Type} (key : A -> Z) (reverse : bool).

Lemma insert_by_perm x l : Permutation (insert_by key reverse x l) (x :: l).
Proof.
  induction l as [|y t IH]; simpl; [reflexivity|].
  destruct (if reverse then _ else _); [reflexivity|].
  rewrite IH. apply perm_swap.
Qed.

Lemma list_sort_perm l : Permutation (list_sort key reverse l) l.
Proof.
  induction l as [|x t IH]; simpl; [reflexivity|].
  rewrite insert_by_perm. now constructor.
Qed.

Lemma insert_by_sorted x l :
  StronglySorted (in_order key reverse) l ->
  StronglySorted (in_order key reverse) (insert_by key reverse x l).
Proof.
  induction 1 as [|y t St IH Hy]; simpl; [repeat constructor|].
  destruct (if reverse then _ else _) eqn:E.
  - constructor; [now constructor|].
    assert (Hxy : in_order key reverse x y)
      by (unfold in_order; destruct reverse; now apply Z.leb_le).
    constructor; [exact Hxy|].
    eapply Forall_impl; [|exact Hy].
    intros z Hz. unfold in_order in *. destruct reverse; lia.
  - constructor; [exact IH|].
    eapply Permutation_Forall; [symmetry; apply insert_by_perm|].
    constructor; [|exact Hy].
    unfold in_order. destruct reverse; apply Z.leb_gt in E; lia.
Qed.

Lemma list_sort_sorted l : StronglySorted (in_order key reverse) (list_sort key reverse l).
Proof.
  induction l; simpl; [constructor | now apply insert_by_sorted].
Qed.

Lemma insert_by_stable k x l :
  filter (fun y => key y =? k) (insert_by key reverse x l)
  = filter (fun y => key y =? k) (x :: l).
Proof.
  induction l as [|y t IH]; [reflexivity|].
  cbn [insert_by]. destruct (if reverse then _ else _) eqn:E; [reflexivity|].
  cbn [filter] in *. rewrite IH.
  destruct (key x =? k) eqn:Ex; [|reflexivity].
  destruct (key y =? k) eqn:Ey; [|reflexivity].
  apply Z.eqb_eq in Ex, Ey. destruct reverse; apply Z.leb_gt in E; lia.
Qed.

(** elements with one key leave the sort in the order they came in *)
Lemma list_sort_stable k l :
  filter (fun y => key y =? k) (list_sort key reverse l)
  = filter (fun y => key y =? k) l.
Proof.
  induction l as [|x t IH]; [reflexivity|].
  cbn [list_sort fold_right]. fold (list_sort key reverse t).
  rewrite insert_by_stable. cbn [filter]. now rewrite IH.
Qed.

Lemma list_sort_nil l : list_sort key reverse l = [] -> l = [].
Proof.
  intros H. assert (P := list_sort_perm l). rewrite H in P.
  now apply Permutation_nil in P.
Qed.

End SortFacts.

(* ================================================================== *)
(** * Sorting on a key that can raise *)

Section SortKeyFacts.
Context {A : Type} (key : A -> result Z) (reverse : bool).

Lemma decorate_ok l :
  Forall (key_ok key) l ->
  decorate key l = Ok (map (fun x => (key_value key x, x)) l).
Proof.
  induction 1 as [|x t [z Hx] Ft IH]; simpl; [reflexivity|].
  unfold key_value at 1. rewrite Hx, IH. reflexivity.
Qed.

Lemma decorate_cases l :
  Forall (key_ok key) l \/ exists x e, In x l /\ key x = Raise e /\
                                      decorate key l = Raise e.
Proof.
  induction l as [|x t IH]; [left; constructor|].
  destruct (key x) as [z|e] eqn:Hx.
  - destruct IH as [F | (y & e & I & Hy & D)].
    + left. constructor; [now exists z | exact F].
    + right. exists y, e. split; [now right|]. split; [exact Hy|].
      simpl. now rewrite Hx, D.
  - right. exists x, e. split; [now left|]. split; [exact Hx|].
    simpl. now rewrite Hx.
Qed.

Lemma insert_by_decorated (f : A -> Z) x l :
  insert_by fst reverse (f x, x) (map (fun y => (f y, y)) l)
  = map (fun y => (f y, y)) (insert_by f reverse x l).
Proof.
  induction l as [|y t IH]; [reflexivity|].
  cbn [map insert_by fst].
  destruct (if reverse then _ else _); [reflexivity|].
  cbn [map]. now rewrite IH.
Qed.

Lemma list_sort_decorated (f : A -> Z) l :
  list_sort fst reverse (map (fun y => (f y, y)) l)
  = map (fun y => (f y, y)) (list_sort f reverse l).
Proof.
  induction l as [|x t IH]; [reflexivity|].
  cbn [map list_sort fold_right].
  fold (list_sort fst reverse (map (fun y => (f y, y)) t)).
  fold (list_sort f reverse t).
  now rewrite IH, insert_by_decorated.
Qed.

(** when no key raises, the sort is the sort on the values of the keys *)
Lemma sort_with_key_ok l :
  Forall (key_ok key) l ->
  sort_with_key key reverse l = Ok (list_sort (key_value key) reverse l).
Proof.
  intros F. unfold sort_with_key. rewrite decorate_ok by exact F.
  cbn [bind]. rewrite list_sort_decorated, map_map. cbn [snd].
  now rewrite map_id.
Qed.

Lemma key_value_ok l :
  Forall (key_ok key) l -> map key l = map (@Ok Z) (map (key_value key) l).
Proof.
  induction 1 as [|x t [z Hx] Ft IH]; simpl; [reflexivity|].
  unfold key_value at 1. now rewrite Hx, IH.
Qed.

Lemma sort_with_key_cases l :
  (Forall (key_ok key) l /\
   sort_with_key key reverse l = Ok (list_sort (key_value key) reverse l)) \/
  (exists x e, In x l /\ key x = Raise e /\
               sort_with_key key reverse l = Raise e).
Proof.
  destruct (decorate_cases l) as [F | (x & e & I & Hx & D)].
  - left. split; [exact F | now apply sort_with_key_ok].
  - right. exists x, e. repeat split; trivial.
    unfold sort_with_key. now rewrite D.
Qed.

Lemma sort_with_key_inv l sorted :
  sort_with_key key reverse l = Ok sorted ->
  Forall (key_ok key) l /\ sorted = list_sort (key_value key) reverse l.
Proof.
  destruct (sort_with_key_cases l) as [[F E] | (x & e & _ & _ & E)];
    rewrite E; [intros [= <-]; auto | discriminate].
Qed.

End SortKeyFacts.

(* ================================================================== *)
(** * Dictionaries *)

Section DictFacts.
Context {V : Type}.
Implicit Types (d : dict V) (k : string) (v : V).

Lemma get_in d k v : get d k = Some v -> In (k, v) d.
Proof.
  induction d as [|[k' v'] t IH]; simpl; [discriminate|].
  destruct (String.eqb k' k) eqn:E.
  - apply String.eqb_eq in E. intros [= ->]. left. now subst.
  - auto.
Qed.

Lemma mem_keys d k : mem d k = true <-> In k (keys d).
Proof.
  unfold mem. induction d as [|[k' v'] t IH]; simpl.
  - split; [discriminate | contradiction].
  - destruct (String.eqb k' k) eqn:E.
    + apply String.eqb_eq in E. split; auto.
    + apply String.eqb_neq in E. rewrite IH. split; [auto|].
      intros [? | ?]; [contradiction | assumption].
Qed.

Lemma keys_setitem d k v :
  keys (setitem d k v) = if mem d k then keys d else (keys d ++ [k])%list.
Proof.
  unfold mem. induction d as [|[k' v'] t IH]; simpl; [reflexivity|].
  destruct (String.eqb k' k) eqn:E; simpl; [reflexivity|].
  rewrite IH. now destruct (get t k).
Qed.

Lemma setitem_nodup d k v : NoDup (keys d) -> NoDup (keys (setitem d k v)).
Proof.
  intros N. rewrite keys_setitem. destruct (mem d k) eqn:M; [exact N|].
  apply NoDup_app; [exact N | repeat constructor; intros [] |].
  intros x Hx [<- | []].
  apply mem_keys in Hx. congruence.
Qed.

Lemma setitem_forall (P : string -> Prop) d k v :
  P k -> Forall P (keys d) -> Forall P (keys (setitem d k v)).
Proof.
  intros Pk F. rewrite keys_setitem. destruct (mem d k); [exact F|].
  apply Forall_app. split; [exact F | now repeat constructor].
Qed.

End DictFacts.

(* ================================================================== *)
(** * The name map of a sheet *)

Section ColumnMapFacts.

Lemma column_step_norm cols a b c :
  snd (fst (fold_left column_step cols (a, b, c)))
  = fold_left (fun m col =>
                 setitem m (PyStr.lower (PyStr.strip (title col))) (id col))
              cols b.
Proof.
  revert a b c. induction cols as [|col t IH]; intros; simpl; [reflexivity|].
  apply IH.
Qed.

Lemma norm_fold_invariant cols b :
  NoDup (keys b) -> Forall normalized (keys b) ->
  let m := fold_left (fun m col =>
                 setitem m (PyStr.lower (PyStr.strip (title col))) (id col))
              cols b in
  NoDup (keys m) /\ Forall normalized (keys m).
Proof.
  revert b. induction cols as [|col t IH]; intros b N F; simpl; [auto|].
  apply IH.
  - now apply setitem_nodup.
  - apply setitem_forall; [apply normalized_lower_strip | exact F].
Qed.

(** the keys of a sheet's name map are distinct, trimmed and lower-cased *)
Lemma norm_to_id_of_wf sheet :
  NoDup (keys (norm_to_id_of sheet)) /\
  Forall normalized (keys (norm_to_id_of sheet)).
Proof.
  unfold norm_to_id_of, build_column_maps. rewrite column_step_norm.
  apply norm_fold_invariant; simpl; constructor.
Qed.

End ColumnMapFacts.

(* ================================================================== *)
(** * The column pattern and the schema detector *)

Section DetectFacts.
Import PyStr.

Lemma span_digits_spec s ds rest :
  span_digits s = (ds, rest) ->
  s = ds ++ rest /\ all_chars is_digit ds = true.
Proof.
  revert ds rest. induction s as [|c t IH]; simpl; intros ds rest.
  - intros [= <- <-]. auto.
  - destruct (is_digit c) eqn:D.
    + destruct (span_digits t) as [ds' rest'].
      intros [= <- <-]. destruct (IH _ _ eq_refl) as [-> H].
      simpl. now rewrite D, H.
    + intros [= <- <-]. auto.
Qed.

Lemma span_digits_all n :
  all_chars is_digit n = true -> span_digits n = (n, "").
Proof.
  induction n as [|c t IH]; simpl; [reflexivity|].
  intros H. apply andb_true_iff in H as [-> Ht]. now rewrite IH.
Qed.

Lemma base_re_match_some s n :
  base_re_match s = Some n ->
  is_number n /\ (s = "m" ++ n \/ s = ("m" ++ n) ++ newline).
Proof.
  unfold base_re_match. destruct s as [|c rest]; [discriminate|].
  destruct (Ascii.eqb c "m") eqn:Ec.
  - apply Ascii.eqb_eq in Ec. subst c.
    destruct (span_digits rest) as [ds tail] eqn:Sp.
    apply span_digits_spec in Sp as [-> Hd].
    destruct (negb (ds =? "")%string) eqn:Ne; simpl; [|discriminate].
    destruct (tail =? "")%string eqn:T1; simpl.
    + apply String.eqb_eq in T1. subst tail. intros [= <-].
      split; [|left; now rewrite app_empty_r].
      split; [|exact Hd]. intros ->. discriminate.
    + destruct (tail =? newline)%string eqn:T2; [|discriminate].
      apply String.eqb_eq in T2. subst tail. intros [= <-].
      split; [|now right]. split; [|exact Hd]. intros ->. discriminate.
  - destruct c as [[] [] [] [] [] [] [] []]; try discriminate.
Qed.

Lemma base_re_match_number n :
  is_number n -> base_re_match ("m" ++ n) = Some n.
Proof.
  intros [Ne Hd]. cbn [append base_re_match].
  change (base_re_match (String "m" n))
    with (let '(n0, tail) := span_digits n in
          if negb (n0 =? "")%string &&
             ((tail =? "")%string || (tail =? newline)%string)
          then Some n0 else None).
  rewrite span_digits_all by exact Hd.
  apply String.eqb_neq in Ne. now rewrite Ne.
Qed.

(** on a trimmed name the pattern is exactly [m] followed by digits *)
Lemma base_re_match_normalized s n :
  normalized s -> base_re_match s = Some n -> is_number n /\ s = "m" ++ n.
Proof.
  intros N M. apply base_re_match_some in M as [Hn [E | E]]; [auto|].
  exfalso. subst s. unfold newline in N.
  now apply normalized_no_trailing_space in N.
Qed.

Lemma in_candidate d k e :
  In e (candidate d k) <->
  exists n, base_re_match k = Some n /\ label e = "M" ++ n /\
            get d ("m" ++ n) = Some (title_id e) /\
            get d ("m" ++ n ++ " date") = Some (date_id e) /\
            get d ("m" ++ n ++ " status") = Some (status_id e).
Proof.
  unfold candidate. destruct (base_re_match k) as [n|].
  - cbn zeta. cbn [append].
    destruct (get d (String "m" n)) as [t|] eqn:G1;
      [destruct (get d (String "m" (n ++ " date"))) as [dd|] eqn:G2;
       [destruct (get d (String "m" (n ++ " status"))) as [st|] eqn:G3|]|].
    + split.
      * intros [<- | []]. exists n. cbn. auto.
      * intros (n' & [= <-] & L & T & D & S). left.
        rewrite G1 in T. rewrite G2 in D. rewrite G3 in S.
        destruct e; simpl in *. congruence.
    + split; [intros [] | intros (n' & [= <-] & _ & _ & _ & S)].
      rewrite G3 in S. discriminate.
    + split; [intros [] | intros (n' & [= <-] & _ & _ & D & _)].
      rewrite G2 in D. discriminate.
    + split; [intros [] | intros (n' & [= <-] & _ & T & _)].
      rewrite G1 in T. discriminate.
  - split; [intros [] | intros (n' & ? & _); discriminate].
Qed.

Lemma detect_step_ok d acc k :
  (forall n, base_re_match k = Some n -> mem d ("m" ++ n) = true) ->
  detect_step d (Ok acc) k = Ok (acc ++ candidate d k)%list.
Proof.
  intros H. unfold detect_step, candidate, bind.
  destruct (base_re_match k) as [n|] eqn:M; [|now rewrite app_nil_r].
  assert (B := H n eq_refl). cbn zeta. unfold getitem, mem in *.
  cbn [append] in *.
  destruct (get d (String "m" n)) as [tt|]; [|discriminate].
  destruct (get d (String "m" (n ++ " date"))) as [dd|];
    [destruct (get d (String "m" (n ++ " status"))) as [st|]|];
    simpl; now rewrite ?app_nil_r.
Qed.

Lemma detect_fold d ks acc :
  (forall k n, In k ks -> base_re_match k = Some n ->
               mem d ("m" ++ n) = true) ->
  fold_left (detect_step d) ks (Ok acc)
  = Ok (acc ++ flat_map (candidate d) ks)%list.
Proof.
  revert acc. induction ks as [|k t IH]; intros acc H; cbn [fold_left flat_map].
  - now rewrite app_nil_r.
  - rewrite detect_step_ok by (intros; eapply H; [left|]; eauto).
    rewrite IH by (intros; eapply H; [right|]; eauto).
    now rewrite <- app_assoc.
Qed.

Lemma detect_milestone_sets_ok d :
  Forall normalized (keys d) ->
  detect_milestone_sets d
  = sort_with_key label_number false (flat_map (candidate d) (keys d)).
Proof.
  intros F. unfold detect_milestone_sets. rewrite detect_fold; [reflexivity|].
  intros k n I M. rewrite Forall_forall in F.
  destruct (base_re_match_normalized k n (F k I) M) as [_ ->].
  now apply mem_keys.
Qed.

Lemma candidate_key d k e :
  normalized k -> In e (candidate d k) -> k = "m" ++ drop 1 (label e).
Proof.
  intros N I. apply in_candidate in I as (n & M & L & _).
  destruct (base_re_match_normalized k n N M) as [_ ->].
  now rewrite L.
Qed.

Lemma candidate_labels_nodup d ks :
  Forall normalized ks -> NoDup ks ->
  NoDup (map label (flat_map (candidate d) ks)).
Proof.
  induction ks as [|k t IH]; intros F N; simpl; [constructor|].
  inversion F as [|? ? Nk Ft]; inversion N as [|? ? Hnot Nt]; subst.
  rewrite map_app. apply NoDup_app.
  - unfold candidate. destruct (base_re_match k); [|constructor].
    cbn zeta.
    destruct (get d _); [|constructor].
    destruct (get d _); [|constructor].
    destruct (get d _); repeat constructor. intros [].
  - now apply IH.
  - intros l I1 I2.
    apply in_map_iff in I1 as (e1 & <- & I1).
    apply in_map_iff in I2 as (e2 & E & I2).
    apply in_flat_map in I2 as (k2 & Ik2 & I2).
    rewrite Forall_forall in Ft.
    apply candidate_key in I1; [|exact Nk].
    apply candidate_key in I2; [|now apply Ft].
    apply Hnot. rewrite I1, <- E, <- I2. exact Ik2.
Qed.

End DetectFacts.

(* ================================================================== *)
(** * [int] on digit strings *)

Section IntFacts.

Lemma uint_of_digit c d :
  PyStr.is_digit c = true -> exists d', uint_of_char c (Some d) = Some d'.
Proof.
  destruct c as [[] [] [] [] [] [] [] []]; try discriminate;
    intros _; eexists; reflexivity.
Qed.

Lemma uint_of_digits s :
  PyStr.all_chars PyStr.is_digit s = true ->
  exists d, NilEmpty.uint_of_string s = Some d.
Proof.
  induction s as [|c t IH]; simpl; [eauto|].
  intros H. apply andb_true_iff in H as [Hc Ht].
  destruct (IH Ht) as [d ->]. now apply uint_of_digit.
Qed.

Lemma int_raise s e : PyStr.int s = Raise e -> e = ValueError.
Proof.
  unfold PyStr.int. destruct (NilZero.uint_of_string s);
    [destruct (_ <? _)|]; now intros [= <-].
Qed.

Lemma int_long s :
  PyStr.MAX_STR_DIGITS < Z.of_nat (String.length s) ->
  PyStr.int s = Raise ValueError.
Proof.
  intros H. unfold PyStr.int. destruct (NilZero.uint_of_string s);
    [|reflexivity].
  apply Z.ltb_lt in H. now rewrite H.
Qed.

Lemma int_short n :
  is_number n -> Z.of_nat (String.length n) <= PyStr.MAX_STR_DIGITS ->
  exists z, PyStr.int n = Ok z.
Proof.
  intros [Ne Hd] H. unfold PyStr.int, NilZero.uint_of_string.
  destruct (uint_of_digits n Hd) as [d E].
  destruct n as [|c t]; [contradiction|]. rewrite E.
  apply Z.ltb_ge in H. rewrite H. eauto.
Qed.


Lemma zeros_app j k : zeros (j + k) = zeros j ++ zeros k.
Proof. induction j as [|j IH]; simpl; [reflexivity | now rewrite IH]. Qed.




(** the sort key of a schema entry reads the digits of its label *)
Lemma label_number_digits e n :
  label e = "M" ++ n -> label_number e = PyStr.int n.
Proof. intros L. unfold label_number. now rewrite L. Qed.

End IntFacts.

(* ================================================================== *)
(** * The evaluator: its loops as maps over rows and schema entries *)

Section EvaluatorFacts.

Lemma hits_fold today row sets acc :
  fold_left (hits_step today row) sets acc
  = (acc ++ flat_map (fun ms => opt_list (milestone_hit today row ms)) sets)%list.
Proof.
  revert acc. induction sets as [|ms t IH]; intros acc; cbn [fold_left flat_map].
  - now rewrite app_nil_r.
  - rewrite IH. unfold hits_step.
    destruct (milestone_hit today row ms); simpl;
      [now rewrite <- app_assoc | reflexivity].
Qed.

(** the unsorted hits of a row follow the schema order *)
Lemma row_hits_flat_map today sets row :
  row_hits today sets row
  = flat_map (fun ms => opt_list (milestone_hit today row ms)) sets.
Proof. unfold row_hits. now rewrite hits_fold. Qed.

Lemma row_step_app today p sets acc row :
  row_step today p sets acc row
  = (acc ++ opt_list (row_result today p sets row))%list.
Proof.
  unfold row_result, row_step.
  destruct (row_hits today sets row); simpl; [now rewrite app_nil_r | reflexivity].
Qed.

Lemma rows_fold today p sets rs acc :
  fold_left (row_step today p sets) rs acc
  = (acc ++ results_in_row_order today p sets rs)%list.
Proof.
  unfold results_in_row_order.
  revert acc. induction rs as [|row t IH]; intros acc; cbn [fold_left flat_map].
  - now rewrite app_nil_r.
  - now rewrite IH, row_step_app, <- app_assoc.
Qed.

Lemma row_result_some today p sets row r :
  row_result today p sets row = Some r <->
  row_hits today sets row <> [] /\
  r = mkResult (py_or (cell_value row p) (VStr UNNAMED))
               (list_sort days true (row_hits today sets row)).
Proof.
  unfold row_result, row_step.
  destruct (row_hits today sets row) as [|h t]; simpl.
  - split; [discriminate | intros [H _]; now contradiction H].
  - split; [intros [= <-]; split; [discriminate | reflexivity]
           | intros [_ ->]; reflexivity].
Qed.

Lemma StronglySorted_impl_in {A} (R R' : A -> A -> Prop) l :
  (forall a b, In a l -> In b l -> R a b -> R' a b) ->
  StronglySorted R l -> StronglySorted R' l.
Proof.
  intros H S. induction S as [|a t St IH Fa]; constructor.
  - apply IH. intros x y Ix Iy. apply H; now right.
  - rewrite Forall_forall in *. intros y Iy.
    apply H; [now left | now right | now apply Fa].
Qed.

Lemma find_past_due_milestones_unfold sheet w :
  find_past_due_milestones sheet w =
  match get_today_local w with
  | Raise e => Raise e
  | Ok today =>
      match detect_milestone_sets (norm_to_id_of sheet) with
      | Raise e => Raise e
      | Ok [] => Raise (RuntimeError NO_MILESTONES)
      | Ok (ms :: rest) =>
          Ok (list_sort top_days true
                (results_in_row_order today
                   (primary_col_id_of sheet) (ms :: rest) (rows sheet)))
      end
  end.
Proof.
  unfold find_past_due_milestones, norm_to_id_of, primary_col_id_of.
  destruct (build_column_maps sheet) as [[a b] c]. simpl.
  destruct (get_today_local w) as [today|e]; [|reflexivity]. simpl.
  destruct (detect_milestone_sets b) as [[|ms rest]|e]; simpl; try reflexivity.
  now rewrite rows_fold.
Qed.


Lemma detect_normalized_inv d sets :
  Forall normalized (keys d) ->
  detect_milestone_sets d = Ok sets ->
  Forall (key_ok label_number) (flat_map (candidate d) (keys d)) /\
  sets = list_sort (key_value label_number) false
           (flat_map (candidate d) (keys d)).
Proof.
  intros F. rewrite detect_milestone_sets_ok by exact F.
  apply sort_with_key_inv.
Qed.

Lemma detect_on_sheet_inv sheet sets :
  detect_milestone_sets (norm_to_id_of sheet) = Ok sets ->
  Forall (key_ok label_number)
         (flat_map (candidate (norm_to_id_of sheet))
                   (keys (norm_to_id_of sheet))) /\
  sets = list_sort (key_value label_number) false
           (flat_map (candidate (norm_to_id_of sheet))
                     (keys (norm_to_id_of sheet))).
Proof. apply detect_normalized_inv, norm_to_id_of_wf. Qed.

(** a sort key that raises raises [ValueError] *)
Lemma label_number_raise e x : label_number x = Raise e -> e = ValueError.
Proof. apply int_raise. Qed.


(** the values of the keys of a sorted schema go up *)
Lemma sorted_key_values (l : list MilestoneSet) :
  Forall (key_ok label_number) l ->
  StronglySorted
    (fun a b => exists x y, label_number a = Ok x /\ label_number b = Ok y /\
                            x <= y)
    (list_sort (key_value label_number) false l).
Proof.
  intros F.
  assert (F' : Forall (key_ok label_number)
                      (list_sort (key_value label_number) false l))
    by (eapply Permutation_Forall; [symmetry; apply list_sort_perm | exact F]).
  assert (S := list_sort_sorted (key_value label_number) false l).
  rewrite Forall_forall in F'.
  revert S. apply StronglySorted_impl_in.
  intros a b Ia Ib R.
  destruct (F' a Ia) as [x Hx]. destruct (F' b Ib) as [y Hy].
  exists x, y. repeat split; trivial.
  unfold in_order, key_value in R. now rewrite Hx, Hy in R.
Qed.

Lemma milestone_hit_some today row ms h :
  milestone_hit today row ms = Some h <->
  exists d,
    parse_date (cell_value row (Some (date_id ms))) = Some d /\
    date_lt d today = true /\
    in_completed (normalize_status (cell_value row (Some (status_id ms))))
    = false /\
    h = mkHit (py_or (cell_value row (Some (title_id ms))) (VStr (label ms)))
              (label ms) (isoformat d) (sub_days today d)
              (cell_value row (Some (status_id ms))).
Proof.
  unfold milestone_hit.
  destruct (parse_date _) as [d|].
  - destruct (date_lt d today) eqn:L; simpl.
    + destruct (in_completed _) eqn:C; simpl.
      * split; [discriminate | intros (d' & [= <-] & _ & ? & _); discriminate].
      * split; [intros [= <-]; eauto 6
               | intros (d' & [= <-] & _ & _ & ->); reflexivity].
    + split; [discriminate | intros (d' & [= <-] & ? & _); congruence].
  - split; [discriminate | intros (d' & ? & _); discriminate].
Qed.

Lemma in_results_in_row_order today p sets rs r :
  In r (results_in_row_order today p sets rs) <->
  exists row, In row rs /\ row_result today p sets row = Some r.
Proof.
  unfold results_in_row_order. rewrite in_flat_map.
  split; intros (row & I & H); exists row; split; trivial.
  - destruct (row_result today p sets row); simpl in H;
      [destruct H as [<- | []]; reflexivity | contradiction].
  - rewrite H. now left.
Qed.

Lemma in_row_hits today sets row h :
  In h (row_hits today sets row) <->
  exists ms, In ms sets /\ milestone_hit today row ms = Some h.
Proof.
  rewrite row_hits_flat_map, in_flat_map.
  split; intros (ms & I & H); exists ms; split; trivial.
  - destruct (milestone_hit today row ms); simpl in H;
      [destruct H as [<- | []]; reflexivity | contradiction].
  - rewrite H. now left.
Qed.

End EvaluatorFacts.

(* ================================================================== *)
(** * The evaluator: what its output holds *)

Section OutputFacts.

Lemma find_ok_inv sheet w results :
  find_past_due_milestones sheet w = Ok results ->
  exists today sets,
    get_today_local w = Ok today /\
    detect_milestone_sets (norm_to_id_of sheet) = Ok sets /\
    sets <> [] /\
    results = list_sort top_days true
                (results_in_row_order today
                   (primary_col_id_of sheet) sets (rows sheet)).
Proof.
  rewrite find_past_due_milestones_unfold.
  destruct (get_today_local w) as [today|e]; [|discriminate].
  destruct (detect_milestone_sets _) as [[|ms rest]|e]; try discriminate.
  intros [= <-]. exists today, (ms :: rest). repeat split. discriminate.
Qed.

Lemma in_list_sort {A} (key : A -> Z) rev l x :
  In x (list_sort key rev l) <-> In x l.
Proof.
  split; apply Permutation_in;
    [apply list_sort_perm | symmetry; apply list_sort_perm].
Qed.

(** the results are those of the rows that have a hit *)
Lemma in_results sheet w today results sets r :
  find_past_due_milestones sheet w = Ok results ->
  get_today_local w = Ok today ->
  detect_milestone_sets (norm_to_id_of sheet) = Ok sets ->
  (In r results <->
   exists row, In row (rows sheet) /\
               row_result today (primary_col_id_of sheet) sets row = Some r).
Proof.
  intros F T D. apply find_ok_inv in F as (today' & sets' & T' & D' & _ & ->).
  rewrite T in T'. injection T' as <-.
  rewrite D in D'. injection D' as <-.
  now rewrite in_list_sort, in_results_in_row_order.
Qed.

(** the hits of the output are the hits the inner loop appends *)
Lemma in_output_hits sheet w today results sets h :
  find_past_due_milestones sheet w = Ok results ->
  get_today_local w = Ok today ->
  detect_milestone_sets (norm_to_id_of sheet) = Ok sets ->
  ((exists r, In r results /\ In h (hits r)) <->
   exists row ms, In row (rows sheet) /\ In ms sets /\
                  milestone_hit today row ms = Some h).
Proof.
  intros F T D. split.
  - intros (r & Ir & Ih).
    apply (in_results _ _ _ _ _ _ F T D) in Ir as (row & Irow & R).
    apply row_result_some in R as [_ ->]. simpl in Ih.
    apply in_list_sort, in_row_hits in Ih as (ms & Ims & M).
    eauto 6.
  - intros (row & ms & Irow & Ims & M).
    assert (Ih : In h (row_hits today sets row))
      by (apply in_row_hits; eauto).
    eexists. split.
    + apply (in_results _ _ _ _ _ _ F T D). exists row. split; [exact Irow|].
      apply row_result_some. split; [|reflexivity].
      intros E. rewrite E in Ih. contradiction.
    + simpl. now apply in_list_sort.
Qed.

End OutputFacts.

(* ================================================================== *)
(** * The properties of the specification *)

(** C1.  For every row and schema entry the inner loop appends a hit exactly
    when the date cell parses to a calendar date, that date is strictly
    before today and the normalized status is not a completed one; the hits
    of the evaluator's output are exactly the hits so appended; and every
    hit of the output carries the ISO form of its due date and
    [days = (today - due).days], which is at least 1.  Here [today] is the
    date [get_today_local] returns. *)
Theorem C1_hit_iff_past_due_incomplete :
  forall (sheet : Sheet) (w : World) (today : date)
         (results : list ProjectResult),
    get_today_local w = Ok today ->
    valid_date today = true ->
    find_past_due_milestones sheet w = Ok results ->
    exists sets,
      detect_milestone_sets (norm_to_id_of sheet) = Ok sets /\
      (forall row ms,
          (exists h, milestone_hit today row ms = Some h) <->
          (exists d,
              parse_date (cell_value row (Some (date_id ms))) = Some d /\
              date_lt d today = true /\
              in_completed
                (normalize_status (cell_value row (Some (status_id ms))))
              = false)) /\
      (forall h,
          (exists r, In r results /\ In h (hits r)) <->
          (exists row ms, In row (rows sheet) /\ In ms sets /\
                          milestone_hit today row ms = Some h)) /\
      (forall r h,
          In r results -> In h (hits r) ->
          exists d,
            valid_date d = true /\ date_lt d today = true /\
            due h = isoformat d /\
            days h = toordinal today - toordinal d /\
            1 <= days h).
Proof.
  intros sheet w today results T V F.
  destruct (find_ok_inv _ _ _ F) as (today' & sets & T' & D & _ & _).
  rewrite T in T'. injection T' as <-.
  exists sets. split; [exact D|]. split; [|split].
  - intros row ms. split.
    + intros (h & H). apply milestone_hit_some in H as (d & P & L & C & _).
      eauto.
    + intros (d & P & L & C). eexists. apply milestone_hit_some.
      exists d. repeat split; eassumption.
  - intros h. now apply (in_output_hits sheet w).
  - intros r h Ir Ih.
    assert (E : exists r, In r results /\ In h (hits r)) by eauto.
    apply (in_output_hits _ _ _ _ _ _ F T D) in E as (row & ms & _ & _ & M).
    apply milestone_hit_some in M as (d & P & L & _ & ->).
    assert (Vd := parse_date_valid _ _ P).
    assert (Q := toordinal_lt d _ Vd V L).
    exists d. cbn [due days]. unfold sub_days. repeat split; trivial. lia.
Qed.

Lemma C1_witness :
  exists sets,
    detect_milestone_sets (norm_to_id_of demo_sheet) = Ok sets /\
    (forall row ms,
        (exists h, milestone_hit demo_today row ms = Some h) <->
        (exists d,
            parse_date (cell_value row (Some (date_id ms))) = Some d /\
            date_lt d demo_today = true /\
            in_completed
              (normalize_status (cell_value row (Some (status_id ms))))
            = false)) /\
    (forall h,
        (exists r, In r [mkResult (VStr "Alpha")
                           [mkHit (VStr "Kickoff") "M1" "2020-01-01" 9
                                  (VStr "Open")]] /\ In h (hits r)) <->
        (exists row ms, In row (rows demo_sheet) /\ In ms sets /\
                        milestone_hit demo_today row ms = Some h)) /\
    (forall r h,
        In r [mkResult (VStr "Alpha")
                [mkHit (VStr "Kickoff") "M1" "2020-01-01" 9 (VStr "Open")]] ->
        In h (hits r) ->
        exists d,
          valid_date d = true /\ date_lt d demo_today = true /\
          due h = isoformat d /\
          days h = toordinal demo_today - toordinal d /\
          1 <= days h).
Proof.
  apply (C1_hit_iff_past_due_incomplete demo_sheet demo_world demo_today).
  - reflexivity.
  - reflexivity.
  - vm_compute. reflexivity.
Defined.

(** C2.  [normalize_status] sends [None] to the empty string and any other
    value to its string form, trimmed and lower-cased; [COMPLETED_VALUES] is
    the five-word set; so the test is blind to surrounding white space and
    to case, the status values [" Completed "], ["COMPLETE"], ["done"] and
    ["100%"] suppress the hit of any row, and ["in progress"], [""] and an
    absent status do not. *)
Theorem C2_status_normalization :
  normalize_status VNone = "" /\
  (forall v, v <> VNone ->
             normalize_status v = PyStr.lower (PyStr.strip (str v))) /\
  (forall s, in_completed s = true <->
             In s ["completed"; "complete"; "done"; "closed"; "100%"]) /\
  (forall pre s post,
      PyStr.all_chars PyStr.is_space pre = true ->
      PyStr.all_chars PyStr.is_space post = true ->
      normalize_status (VStr (pre ++ s ++ post)) = normalize_status (VStr s)) /\
  (forall s t, PyStr.lower s = PyStr.lower t ->
               normalize_status (VStr s) = normalize_status (VStr t)) /\
  (forall today row ms s,
      In s [" Completed "; "COMPLETE"; "done"; "100%"] ->
      cell_value row (Some (status_id ms)) = VStr s ->
      milestone_hit today row ms = None) /\
  (forall today row ms v d,
      In v [VStr "in progress"; VStr ""; VNone] ->
      cell_value row (Some (status_id ms)) = v ->
      parse_date (cell_value row (Some (date_id ms))) = Some d ->
      date_lt d today = true ->
      exists h, milestone_hit today row ms = Some h /\ status h = v).
Proof.
  split; [reflexivity|]. split; [|split; [|split; [|split; [|split]]]].
  - intros [] H; try reflexivity. now contradiction H.
  - intros s. unfold in_completed, COMPLETED_VALUES. rewrite existsb_exists.
    split.
    + intros (x & I & E). apply String.eqb_eq in E. now subst.
    + intros I. exists s. split; [exact I | apply String.eqb_refl].
  - intros pre s post Hpre Hpost. simpl. now rewrite strip_padded.
  - intros s t E. simpl. unfold PyStr.lower in *.
    rewrite <- !strip_map_chars by apply is_space_lower_char. now rewrite E.
  - intros today row ms s I C. unfold milestone_hit. rewrite C.
    destruct (parse_date _); [|reflexivity].
    simpl in I. destruct I as [<- | [<- | [<- | [<- | []]]]];
      now rewrite andb_false_r.
  - intros today row ms v d I C P L.
    eexists. split.
    + apply milestone_hit_some. exists d. rewrite C.
      repeat split; try eassumption.
      simpl in I. destruct I as [<- | [<- | [<- | []]]]; reflexivity.
    + reflexivity.
Qed.

Lemma C2_witness :
  milestone_hit demo_today
    (mkRow [text_cell 3 "2020-01-01"; text_cell 4 " Completed "]) demo_set
  = None /\
  normalize_status (VStr "  DONE  ") = normalize_status (VStr "DONE").
Proof.
  destruct C2_status_normalization as (_ & _ & _ & Hpad & _ & Hdone & _).
  split.
  - apply (Hdone demo_today _ demo_set " Completed ").
    + simpl. auto.
    + reflexivity.
  - apply (Hpad "  " "DONE" "  "); reflexivity.
Defined.


Lemma in_keys_get {V} (d : dict V) k :
  In k (keys d) -> exists v, get d k = Some v.
Proof.
  intros I. apply mem_keys in I. unfold mem in I.
  destruct (get d k); [eauto | discriminate].
Qed.




(** the schema of [demo_names]: [M1], [M2], [M10], and nothing for [m5] *)
Example detect_demo_names :
  detect_milestone_sets demo_names
  = Ok [mkSet "M1" 8 9 10; mkSet "M2" 5 6 7; mkSet "M10" 2 3 4].
Proof. reflexivity. Qed.




(** C5.  In the evaluator's output the hits of each result are the hits of
    its row sorted on [days] in descending order, hits with equal [days]
    staying in the order of the schema (itself ascending in [n]); and the
    results are those of the rows sorted on the [days] of their first hit in
    descending order, results with an equal key staying in row order.  The
    first hit of a result has the largest [days] of its hits. *)
Theorem C5_sorted_descending_stable :
  forall (sheet : Sheet) (w : World) (results : list ProjectResult),
    find_past_due_milestones sheet w = Ok results ->
    exists today sets,
      get_today_local w = Ok today /\
      detect_milestone_sets (norm_to_id_of sheet) = Ok sets /\
      StronglySorted
        (fun a b => exists x y, label_number a = Ok x /\
                                label_number b = Ok y /\ x <= y) sets /\
      (forall r,
          In r results ->
          exists row,
            In row (rows sheet) /\
            let in_schema_order :=
              flat_map (fun ms => opt_list (milestone_hit today row ms)) sets in
            Permutation (hits r) in_schema_order /\
            StronglySorted (fun a b => days b <= days a) (hits r) /\
            (forall k, filter (fun h => days h =? k) (hits r)
                       = filter (fun h => days h =? k) in_schema_order) /\
            (exists h t, hits r = h :: t /\ top_days r = days h /\
                         Forall (fun x => days x <= days h) t)) /\
      (let in_row_order :=
         results_in_row_order today (primary_col_id_of sheet) sets
                              (rows sheet) in
       Permutation results in_row_order /\
       StronglySorted (fun a b => top_days b <= top_days a) results /\
       (forall k, filter (fun r => top_days r =? k) results
                  = filter (fun r => top_days r =? k) in_row_order)).
Proof.
  intros sheet w results F.
  destruct (find_ok_inv _ _ _ F) as (today & sets & T & D & _ & E).
  exists today, sets. split; [exact T|]. split; [exact D|]. split; [|split].
  - destruct (detect_on_sheet_inv _ _ D) as [K ->].
    now apply sorted_key_values.
  - intros r Ir.
    apply (in_results _ _ _ _ _ _ F T D) in Ir as (row & Irow & R).
    apply row_result_some in R as [Hne ->].
    exists row. split; [exact Irow|]. cbn [hits]. cbv zeta.
    rewrite <- row_hits_flat_map.
    split; [apply list_sort_perm|].
    split; [exact (list_sort_sorted days true _)|].
    split; [intros k; apply list_sort_stable|].
    assert (S := list_sort_sorted days true (row_hits today sets row)).
    destruct (list_sort days true _) as [|h t] eqn:L.
    + apply list_sort_nil in L. contradiction.
    + exists h, t. repeat split. now inversion S.
  - cbv zeta. rewrite E.
    split; [apply list_sort_perm|].
    split; [exact (list_sort_sorted top_days true _)|].
    intros k. apply list_sort_stable.
Qed.

Lemma C5_witness :
  exists today sets,
    get_today_local demo_world = Ok today /\
    detect_milestone_sets (norm_to_id_of tie_sheet) = Ok sets /\
    StronglySorted
      (fun a b => exists x y, label_number a = Ok x /\
                              label_number b = Ok y /\ x <= y) sets /\
    (forall r,
        In r tie_results ->
        exists row,
          In row (rows tie_sheet) /\
          let in_schema_order :=
            flat_map (fun ms => opt_list (milestone_hit today row ms))
                     sets in
          Permutation (hits r) in_schema_order /\
          StronglySorted (fun a b => days b <= days a) (hits r) /\
          (forall k, filter (fun h => days h =? k) (hits r)
                     = filter (fun h => days h =? k) in_schema_order) /\
          (exists h t, hits r = h :: t /\ top_days r = days h /\
                       Forall (fun x => days x <= days h) t)) /\
    (let in_row_order :=
       results_in_row_order today (primary_col_id_of tie_sheet) sets
                            (rows tie_sheet) in
     Permutation tie_results in_row_order /\
     StronglySorted (fun a b => top_days b <= top_days a) tie_results /\
     (forall k, filter (fun r => top_days r =? k) tie_results
                = filter (fun r => top_days r =? k) in_row_order)).
Proof.
  apply (C5_sorted_descending_stable tie_sheet demo_world tie_results).
  vm_compute. reflexivity.
Defined.

(* ================================================================== *)
(** * The summary text *)

Section FormatFacts.

Lemma hit_lines_fold hs acc :
  fold_left (fun ls h => (ls ++ [hit_line h])%list) hs acc
  = (acc ++ map hit_line hs)%list.
Proof.
  revert acc. induction hs as [|h t IH]; intros acc; simpl.
  - now rewrite app_nil_r.
  - now rewrite IH, <- app_assoc.
Qed.

Lemma project_lines_block lines r :
  project_lines lines r = (lines ++ project_block r)%list.
Proof.
  unfold project_lines, project_block.
  rewrite hit_lines_fold, <- !app_assoc. reflexivity.
Qed.

Lemma project_lines_fold rs lines :
  fold_left project_lines rs lines
  = (lines ++ flat_map project_block rs)%list.
Proof.
  revert lines. induction rs as [|r t IH]; intros lines; simpl.
  - now rewrite app_nil_r.
  - now rewrite IH, project_lines_block, <- app_assoc.
Qed.

Lemma total_hits_fold rs acc :
  fold_left (fun acc r => acc + Z.of_nat (List.length (hits r))) rs acc
  = acc + Z.of_nat (List.length (flat_map hits rs)).
Proof.
  revert acc. induction rs as [|r t IH]; intros acc; simpl; [lia|].
  rewrite IH, length_app. lia.
Qed.

(** [total] is the number of hits over all results *)
Lemma total_hits_count rs :
  total_hits rs = Z.of_nat (List.length (flat_map hits rs)).
Proof. unfold total_hits. now rewrite total_hits_fold. Qed.

Lemma format_summary_cons r rs :
  format_summary (r :: rs)
  = PyStr.rstrip
      (PyStr.join PyStr.newline
         (("Past-due milestones (not completed): "
           ++ PyStr.of_int (total_hits (r :: rs)))
          :: ("Projects impacted: "
              ++ PyStr.of_int (Z.of_nat (List.length (r :: rs))))
          :: "" :: flat_map project_block (r :: rs))).
Proof.
  unfold format_summary. cbv zeta. rewrite project_lines_fold.
  cbn [app]. unfold PyStr.strip. rewrite lstrip_fixed; reflexivity.
Qed.

Lemma rstrip_keeps_head c t :
  PyStr.is_space c = false -> exists t', PyStr.rstrip (String c t) = String c t'.
Proof.
  intros H. simpl. destruct (PyStr.rstrip t); [rewrite H|]; eauto.
Qed.

Lemma join_concat sep lines : PyStr.join sep lines = String.concat sep lines.
Proof.
  induction lines as [|l rest IH]; [reflexivity|].
  destruct rest as [|l' rest]; [reflexivity|].
  change (l ++ sep ++ PyStr.join sep (l' :: rest)
          = l ++ sep ++ String.concat sep (l' :: rest)).
  now rewrite IH.
Qed.

(** [rstrip] removes white space, and only from the end *)
Lemma rstrip_split s :
  exists ws, PyStr.all_chars PyStr.is_space ws = true /\
             s = PyStr.rstrip s ++ ws.
Proof.
  induction s as [|c t (ws & W & E)]; [exists ""; auto|].
  cbn [PyStr.rstrip]. destruct (PyStr.rstrip t) as [|a u] eqn:R.
  - cbn [append] in E. subst ws. destruct (PyStr.is_space c) eqn:Hc.
    + exists (String c t). cbn [PyStr.all_chars append]. now rewrite Hc, W.
    + exists t. auto.
  - exists ws. split; [exact W|]. now rewrite E at 1.
Qed.

(** what [rstrip] returns does not end in white space *)
Lemma rstrip_last s t c :
  PyStr.rstrip s = t ++ String c "" -> PyStr.is_space c = false.
Proof.
  intros E. destruct (PyStr.is_space c) eqn:Hc; [|reflexivity].
  assert (R := rstrip_rstrip s). rewrite E in R.
  rewrite rstrip_app_spaces in R by (cbn [PyStr.all_chars]; now rewrite Hc).
  assert (L := rstrip_length t). rewrite R, app_length in L.
  cbn [String.length] in L. lia.
Qed.

End FormatFacts.

(** C6.  [format_summary] returns the celebratory message on the empty list.
    On a non-empty list its text is what is left, once the white space at
    the end is removed, of these lines joined by newlines: the two header
    lines with the number of hits and the number of projects, an empty
    line, then for each project its bullet line, one line per hit and an
    empty line; the text is not empty and does not end in white space.  A
    hit line reads ["   - <milestone> (<label>) | Due: <due> | Overdue:
    <days>d | Status: <status>"]; equal lists give equal texts.  The text
    for two projects is written out. *)
Theorem C6_format_summary_text :
  format_summary [] = "No past-due incomplete milestones found 🎉" /\
  (forall r rs,
      let results := r :: rs in
      let total := Z.of_nat (List.length (flat_map hits results)) in
      let project_count := Z.of_nat (List.length results) in
      let hit_text := fun h : Hit =>
        "   - " ++ str (milestone h) ++ " (" ++ hit_label h ++ ") | Due: "
        ++ due h ++ " | Overdue: " ++ PyStr.of_int (days h)
        ++ "d | Status: " ++ str (status h) in
      let block := fun p : ProjectResult =>
        ("• " ++ str (project p)) :: (map hit_text (hits p) ++ [""])%list in
      let joined :=
        String.concat (String (ascii_of_nat 10) "")
          (("Past-due milestones (not completed): " ++ PyStr.of_int total)
           :: ("Projects impacted: " ++ PyStr.of_int project_count)
           :: "" :: flat_map block results) in
      format_summary results <> "" /\
      (forall s c,
          format_summary results = s ++ String c "" ->
          PyStr.is_space c = false) /\
      exists ws,
        PyStr.all_chars PyStr.is_space ws = true /\
        joined = format_summary results ++ ws) /\
  (forall h,
      hit_line h
      = "   - " ++ str (milestone h) ++ " (" ++ hit_label h ++ ") | Due: "
        ++ due h ++ " | Overdue: " ++ PyStr.of_int (days h)
        ++ "d | Status: " ++ str (status h)) /\
  (forall a b, a = b -> format_summary a = format_summary b) /\
  format_summary
    [mkResult (VStr "Alpha")
       [mkHit (VStr "Kickoff") "M1" "2020-01-01" 12 (VStr "Open");
        mkHit (VStr "Design") "M2" "2020-01-04" 9 (VStr "In Progress")];
     mkResult (VStr "(Unnamed Project)")
       [mkHit (VStr "Launch") "M10" "2019-12-31" 13 (VStr "")]]
  = "Past-due milestones (not completed): 3
Projects impacted: 2

• Alpha
   - Kickoff (M1) | Due: 2020-01-01 | Overdue: 12d | Status: Open
   - Design (M2) | Due: 2020-01-04 | Overdue: 9d | Status: In Progress

• (Unnamed Project)
   - Launch (M10) | Due: 2019-12-31 | Overdue: 13d | Status:".
Proof.
  split; [reflexivity|]. split; [|split; [|split]].
  - intros r rs results total project_count hit_text block joined.
    assert (E : format_summary results = PyStr.rstrip joined).
    { subst joined results. rewrite <- join_concat.
      rewrite format_summary_cons, total_hits_count. reflexivity. }
    rewrite E. split; [|split].
    + subst joined. rewrite <- join_concat. cbn [PyStr.join append].
      match goal with
      | |- PyStr.rstrip (String ?c ?t) <> _ =>
          destruct (rstrip_keeps_head c t eq_refl) as [t' E']
      end.
      rewrite E'. discriminate.
    + intros s c. apply rstrip_last.
    + apply rstrip_split.
  - reflexivity.
  - now intros a b ->.
  - reflexivity.
Qed.

Lemma C6_witness :
  let results :=
    [mkResult (VStr "Alpha")
       [mkHit (VStr "Kickoff") "M1" "2020-01-01" 9 (VStr "Open")]] in
  format_summary results
  = "Past-due milestones (not completed): 1
Projects impacted: 1

• Alpha
   - Kickoff (M1) | Due: 2020-01-01 | Overdue: 9d | Status: Open" /\
  format_summary results <> "" /\
  (forall s c,
      format_summary results = s ++ String c "" -> PyStr.is_space c = false) /\
  format_summary results = format_summary (list_sort top_days true results).
Proof.
  intros results.
  destruct C6_format_summary_text as (_ & Htext & _ & Hsame & _).
  destruct (Htext (mkResult (VStr "Alpha")
                     [mkHit (VStr "Kickoff") "M1" "2020-01-01" 9 (VStr "Open")])
                  []) as (Hne & Hlast & _).
  split; [reflexivity|]. split; [exact Hne|]. split; [exact Hlast|].
  apply Hsame. reflexivity.
Defined.

(** C7, as the specification words it, fails: the evaluator takes the document
    alone and reads the date from the process state, so one document gives
    different results under different clocks. *)
Lemma C7_counterexample :
  ~ (forall (sheet : Sheet) (w1 w2 : World),
        find_past_due_milestones sheet w1 = find_past_due_milestones sheet w2).
Proof.
  intros H. specialize (H demo_sheet demo_world due_day_world).
  vm_compute in H. discriminate.
Qed.

(** C7, amended.  The evaluator's result is fixed by the document and the
    date [get_today_local] reads from the process state: two evaluations of
    one document under states showing the same date give the same result. *)
Theorem C7_fixed_by_document_and_clock :
  forall (sheet : Sheet) (w1 w2 : World),
    get_today_local w1 = get_today_local w2 ->
    find_past_due_milestones sheet w1 = find_past_due_milestones sheet w2.
Proof.
  intros sheet w1 w2 E. rewrite !find_past_due_milestones_unfold. now rewrite E.
Qed.

Lemma C7_witness :
  find_past_due_milestones demo_sheet demo_world
  = find_past_due_milestones demo_sheet
      (mkWorld "UTC" (fun _ => Some (mkdate 2020 1 10))).
Proof.
  apply (C7_fixed_by_document_and_clock demo_sheet demo_world
           (mkWorld "UTC" (fun _ => Some (mkdate 2020 1 10)))).
  reflexivity.
Defined.

Lemma replace_app c new s t :
  PyStr.replace c new (s ++ t) = PyStr.replace c new s ++ PyStr.replace c new t.
Proof.
  induction s as [|a s' IH]; simpl; [reflexivity|].
  rewrite IH. destruct (Ascii.eqb a c); [now rewrite app_assoc_str | reflexivity].
Qed.

Lemma truthy_app_nonempty s c t : truthy (VStr (s ++ String c t)) = true.
Proof. destruct s; reflexivity. Qed.

(** ** [isoformat] and [parse_date] *)

Lemma Z_range_in lo len n :
  lo <= n < lo + len -> In n (Z_range lo len).
Proof.
  intros H. unfold Z_range. apply in_map_iff.
  exists (Z.to_nat (n - lo)). split; [lia|]. apply in_seq. lia.
Qed.

Lemma pad_ok_4 y : 1 <= y <= 9999 -> pad_ok 4 y = true.
Proof.
  intros H.
  assert (A : forallb (pad_ok 4) (Z_range 1 9999) = true)
    by (vm_compute; reflexivity).
  rewrite forallb_forall in A. apply A, Z_range_in. lia.
Qed.

Lemma pad_ok_2 n : 0 <= n <= 99 -> pad_ok 2 n = true.
Proof.
  intros H.
  assert (A : forallb (pad_ok 2) (Z_range 0 100) = true)
    by (vm_compute; reflexivity).
  rewrite forallb_forall in A. apply A, Z_range_in. lia.
Qed.

Lemma parse_digits_app w acc s v rest :
  parse_digits w acc s = Some (v, EmptyString) ->
  parse_digits w acc (s ++ rest) = Some (v, rest) /\
  PyStr.all_chars PyStr.is_digit s = true.
Proof.
  revert acc s. induction w as [|w IH]; intros acc s; simpl.
  - intros [= <- ->]. auto.
  - destruct s as [|c t]; [discriminate|]. simpl.
    destruct (PyStr.is_digit c); [|discriminate]. intros H.
    now apply IH.
Qed.

Lemma pad_parses w n rest :
  pad_ok w n = true ->
  parse_digits w 0 (zero_pad w n ++ rest) = Some (n, rest) /\
  PyStr.all_chars PyStr.is_digit (zero_pad w n) = true.
Proof.
  unfold pad_ok. intros H.
  destruct (parse_digits w 0 (zero_pad w n)) as [[v [|c t]]|] eqn:E;
    try discriminate.
  apply Z.eqb_eq in H. subst v. now apply parse_digits_app.
Qed.

Lemma replace_digits new s :
  PyStr.all_chars PyStr.is_digit s = true -> PyStr.replace "Z" new s = s.
Proof.
  induction s as [|c t IH]; simpl; [reflexivity|].
  intros H. apply andb_true_iff in H as [Hc Ht]. rewrite IH by exact Ht.
  destruct (Ascii.eqb c "Z") eqn:E; [|reflexivity].
  apply Ascii.eqb_eq in E. subst c. discriminate.
Qed.

Lemma valid_date_day_le_31 d :
  valid_date d = true ->
  1 <= year d <= 9999 /\ 1 <= month d <= 12 /\ 1 <= day d <= 31.
Proof.
  intros V. destruct (valid_date_fields d V) as (Y & M & D).
  repeat split; try lia.
  assert (days_in_month (year d) (month d) <= 31); [|lia].
  unfold days_in_month. destruct (_ && _); [lia|].
  destruct (month d) as [|[[[[]|[]|]|[[]|[]|]|]|[[[]|[]|]|[[]|[]|]|]|]|]; lia.
Qed.

Lemma parse_isoformat_date_isoformat d rest :
  valid_date d = true ->
  parse_isoformat_date (isoformat d ++ rest)
  = Some (year d, month d, day d, rest) /\
  PyStr.replace "Z" "+00:00" (isoformat d) = isoformat d.
Proof.
  intros V. destruct (valid_date_day_le_31 d V) as (Y & M & D).
  unfold isoformat, parse_isoformat_date.
  destruct (pad_parses 4 (year d)
              ("-" ++ zero_pad 2 (month d) ++ "-" ++ zero_pad 2 (day d) ++ rest))
    as [P4 D4]; [apply pad_ok_4; lia|].
  destruct (pad_parses 2 (month d) ("-" ++ zero_pad 2 (day d) ++ rest))
    as [P2 D2]; [apply pad_ok_2; lia|].
  destruct (pad_parses 2 (day d) rest) as [P3 D3]; [apply pad_ok_2; lia|].
  split.
  - rewrite !app_assoc_str. cbn [append] in *. rewrite P4. cbn [expect].
    rewrite Ascii.eqb_refl, P2. cbn [expect]. now rewrite Ascii.eqb_refl, P3.
  - rewrite !replace_app.
    rewrite (replace_digits _ _ D4), (replace_digits _ _ D2),
      (replace_digits _ _ D3).
    reflexivity.
Qed.

Lemma parse_date_isoformat d :
  valid_date d = true -> parse_date (VStr (isoformat d)) = Some d.
Proof.
  intros V.
  destruct (parse_isoformat_date_isoformat d "" V) as [P R].
  rewrite app_empty_r in P.
  unfold parse_date.
  assert (T : truthy (VStr (isoformat d)) = true)
    by (unfold isoformat; cbn [append]; apply truthy_app_nonempty).
  rewrite T. cbn [negb str]. rewrite R.
  unfold fromisoformat. rewrite P. unfold new_datetime.
  replace (mkdate (year d) (month d) (day d)) with d by now destruct d.
  rewrite V. reflexivity.
Qed.

Lemma all_chars_app p s t :
  PyStr.all_chars p (s ++ t) = PyStr.all_chars p s && PyStr.all_chars p t.
Proof.
  induction s as [|c r IH]; simpl; [reflexivity|].
  now rewrite IH, andb_assoc.
Qed.

Lemma all_chars_impl (p q : ascii -> bool) s :
  (forall c, p c = true -> q c = true) ->
  PyStr.all_chars p s = true -> PyStr.all_chars q s = true.
Proof.
  intros H. induction s as [|c r IH]; simpl; [reflexivity|].
  intros E. apply andb_true_iff in E as [Ec Er]. now rewrite (H c Ec), IH.
Qed.

Lemma digit_no_sign c : PyStr.is_digit c = true -> no_sign c = true.
Proof. destruct c as [[] [] [] [] [] [] [] []]; (reflexivity || discriminate). Qed.

Lemma split_offset_plus a t :
  PyStr.all_chars no_sign a = true ->
  split_offset (a ++ String "+" t) = (a, Some (1, t)).
Proof.
  induction a as [|c r IH]; simpl; [reflexivity|].
  intros E. apply andb_true_iff in E as [Ec Er].
  unfold no_sign in Ec. apply andb_true_iff in Ec as [E1 E2].
  apply negb_true_iff in E1, E2. now rewrite E1, E2, IH.
Qed.

Lemma clock_text_no_sign hh mm ss :
  0 <= hh <= 99 -> 0 <= mm <= 99 -> 0 <= ss <= 99 ->
  PyStr.all_chars no_sign (clock_text hh mm ss) = true.
Proof.
  intros Hh Hm Hs. unfold clock_text.
  destruct (pad_parses 2 hh "" (pad_ok_2 hh Hh)) as [_ D1].
  destruct (pad_parses 2 mm "" (pad_ok_2 mm Hm)) as [_ D2].
  destruct (pad_parses 2 ss "" (pad_ok_2 ss Hs)) as [_ D3].
  apply (all_chars_impl _ _ _ digit_no_sign) in D1, D2, D3.
  rewrite !all_chars_app, D1, D2, D3. reflexivity.
Qed.

Lemma parse_clock_text hh mm ss :
  0 <= hh <= 99 -> 0 <= mm <= 99 -> 0 <= ss <= 99 ->
  parse_hh_mm_ss_ff (clock_text hh mm ss) = Some (hh, mm, ss, 0).
Proof.
  intros Hh Hm Hs. unfold clock_text, parse_hh_mm_ss_ff.
  destruct (pad_parses 2 hh (":" ++ zero_pad 2 mm ++ ":" ++ zero_pad 2 ss)
              (pad_ok_2 hh Hh)) as [P1 _].
  destruct (pad_parses 2 mm (":" ++ zero_pad 2 ss) (pad_ok_2 mm Hm))
    as [P2 _].
  destruct (pad_parses 2 ss "" (pad_ok_2 ss Hs)) as [P3 _].
  rewrite app_empty_r in P3. cbn [append] in *.
  rewrite P1. cbn [expect]. rewrite Ascii.eqb_refl, P2. cbn [expect].
  now rewrite Ascii.eqb_refl, P3.
Qed.

Lemma replace_clock_text hh mm ss :
  0 <= hh <= 99 -> 0 <= mm <= 99 -> 0 <= ss <= 99 ->
  PyStr.replace "Z" "+00:00" (clock_text hh mm ss) = clock_text hh mm ss.
Proof.
  intros Hh Hm Hs. unfold clock_text.
  destruct (pad_parses 2 hh "" (pad_ok_2 hh Hh)) as [_ D1].
  destruct (pad_parses 2 mm "" (pad_ok_2 mm Hm)) as [_ D2].
  destruct (pad_parses 2 ss "" (pad_ok_2 ss Hs)) as [_ D3].
  rewrite !replace_app.
  rewrite (replace_digits _ _ D1), (replace_digits _ _ D2),
    (replace_digits _ _ D3).
  reflexivity.
Qed.

(** a UTC timestamp parses to the date written in it *)
Lemma parse_date_utc_timestamp (d : date) (hh mm ss : Z) :
  valid_date d = true ->
  0 <= hh <= 23 -> 0 <= mm <= 59 -> 0 <= ss <= 59 ->
  parse_date (VStr (isoformat d ++ "T" ++ clock_text hh mm ss ++ "Z"))
  = Some d.
Proof.
  intros V Hh Hm Hs.
  assert (Hh' : 0 <= hh <= 99) by lia.
  assert (Hm' : 0 <= mm <= 99) by lia.
  assert (Hs' : 0 <= ss <= 99) by lia.
  destruct (parse_isoformat_date_isoformat d
              ("T" ++ clock_text hh mm ss ++ "+00:00") V) as [P R].
  unfold parse_date.
  assert (T : truthy (VStr (isoformat d ++ "T" ++ clock_text hh mm ss ++ "Z"))
              = true) by (cbn [append]; apply truthy_app_nonempty).
  rewrite T. cbn [negb str].
  assert (E : PyStr.replace "Z" "+00:00"
                (isoformat d ++ "T" ++ clock_text hh mm ss ++ "Z")
              = isoformat d ++ "T" ++ clock_text hh mm ss ++ "+00:00").
  { rewrite !replace_app, R, replace_clock_text by assumption. reflexivity. }
  rewrite E. unfold fromisoformat. rewrite P. cbn [append].
  rewrite split_offset_plus by now apply clock_text_no_sign.
  rewrite parse_clock_text by assumption.
  change (parse_offset 1 "00:00") with (Some 0).
  unfold new_datetime.
  replace (mkdate (year d) (month d) (day d)) with d by now destruct d.
  rewrite V.
  assert (Vt : valid_time hh mm ss 0 = true).
  { unfold valid_time. rewrite !andb_true_iff, !Z.leb_le. lia. }
  rewrite Vt. reflexivity.
Qed.






(** C9, as the specification words it, fails: a primary cell holding the empty
    string is present, yet the result is named by the placeholder, not by
    the cell value. *)
Lemma C9_counterexample :
  ~ (forall today primary_col_id sets row r,
        row_result today primary_col_id sets row = Some r ->
        (cell_value row primary_col_id <> VNone ->
         project r = cell_value row primary_col_id) /\
        (project r = VStr "(Unnamed Project)" <->
         cell_value row primary_col_id = VNone)).
Proof.
  intros H.
  destruct (H demo_today (Some 1) [demo_set] blank_name_row
              (mkResult (VStr "(Unnamed Project)")
                 [mkHit (VStr "Kickoff") "M1" "2020-01-01" 9 (VStr "Open")])
              eq_refl) as [_ [Hname _]].
  specialize (Hname eq_refl). vm_compute in Hname. discriminate.
Qed.

(** C9, amended.  The project name of the result of a row is the value of
    the row's primary-column cell when that value is truthy, and the
    placeholder ["(Unnamed Project)"] when it is falsy: absent, [None], the
    empty string, zero or [False].  Every result of the evaluator is named
    this way from a row of the sheet. *)
Theorem C9_project_name :
  (forall today primary_col_id sets row r,
      row_result today primary_col_id sets row = Some r ->
      let v := cell_value row primary_col_id in
      (truthy v = true -> project r = v) /\
      (truthy v = false -> project r = VStr "(Unnamed Project)") /\
      (v = VNone -> project r = VStr "(Unnamed Project)")) /\
  (forall sheet w results r,
      find_past_due_milestones sheet w = Ok results ->
      In r results ->
      exists row,
        In row (rows sheet) /\
        let v := cell_value row (primary_col_id_of sheet) in
        project r = if truthy v then v else VStr "(Unnamed Project)").
Proof.
  split.
  - intros today p sets row r R v. subst v.
    apply row_result_some in R as [_ ->]. cbn [project]. unfold py_or.
    repeat split.
    + now intros ->.
    + now intros ->.
    + now intros ->.
  - intros sheet w results r F.
    destruct (find_ok_inv _ _ _ F) as (today & sets & T & D & _ & _).
    intros Ir.
    apply (in_results _ _ _ _ _ _ F T D) in Ir as (row & Irow & R).
    exists row. split; [exact Irow|].
    apply row_result_some in R as [_ ->]. reflexivity.
Qed.

Lemma C9_witness :
  project (mkResult (VStr "Alpha")
             [mkHit (VStr "Kickoff") "M1" "2020-01-01" 9 (VStr "Open")])
  = VStr "Alpha" /\
  project (mkResult (VStr "(Unnamed Project)")
             [mkHit (VStr "Kickoff") "M1" "2020-01-01" 9 (VStr "Open")])
  = VStr "(Unnamed Project)".
Proof.
  destruct C9_project_name as [H _]. split.
  - apply (H demo_today (Some 1) [demo_set] demo_row); reflexivity.
  - apply (proj1 (proj2 (H demo_today (Some 1) [demo_set] blank_name_row _
                           eq_refl))).
    reflexivity.
Defined.

Lemma opt_Z_eqb_eq a b : opt_Z_eqb a b = true <-> a = b.
Proof.
  destruct a, b; simpl; try (split; [discriminate|intros [=]]);
    [|split; reflexivity].
  rewrite Z.eqb_eq. split; [now intros -> | now intros [= ->]].
Qed.

Lemma cell_value_in_skip pre rest col :
  (forall c, In c pre -> columnId c <> col) ->
  cell_value_in (pre ++ rest) col = cell_value_in rest col.
Proof.
  induction pre as [|c t IH]; intros H; simpl; [reflexivity|].
  destruct (opt_Z_eqb (columnId c) col) eqn:E.
  - apply opt_Z_eqb_eq in E. exfalso. apply (H c); [now left | exact E].
  - apply IH. intros c' I. apply H. now right.
Qed.

(** C10.  [cell_value] answers from the first cell of the row, in row order,
    whose [columnId] is the wanted one: the content of its [value] key when
    the key is there, [None] included, without looking at [displayValue];
    the content of [displayValue] when only that key is there; [None] when
    the cell has neither key; and [None] when no cell of the row has the
    wanted [columnId]. *)
Theorem C10_cell_value_key_presence :
  (forall pre cell post col,
      (forall c, In c pre -> columnId c <> col) ->
      columnId cell = col ->
      cell_value (mkRow (pre ++ cell :: post)) col = effective cell) /\
  (forall row col,
      (forall c, In c (cells row) -> columnId c <> col) ->
      cell_value row col = VNone) /\
  (forall cell v, value cell = Some v -> effective cell = v) /\
  (forall cell v,
      value cell = None -> displayValue cell = Some v -> effective cell = v) /\
  (forall cell,
      value cell = None -> displayValue cell = None -> effective cell = VNone).
Proof.
  split; [|split; [|split; [|split]]].
  - intros pre cell post col Hpre Hcell. unfold cell_value. cbn [cells].
    rewrite cell_value_in_skip by exact Hpre. cbn [cell_value_in].
    apply opt_Z_eqb_eq in Hcell. rewrite Hcell. unfold effective.
    destruct (value cell); [reflexivity|]. now destruct (displayValue cell).
  - intros row col H. unfold cell_value.
    rewrite <- (app_nil_r (cells row)). now rewrite cell_value_in_skip.
  - intros cell v H. unfold effective. now rewrite H.
  - intros cell v H1 H2. unfold effective. now rewrite H1, H2.
  - intros cell H1 H2. unfold effective. now rewrite H1, H2.
Qed.

Lemma C10_witness :
  cell_value
    (mkRow [text_cell 1 "Alpha";
            mkCell (Some 7) (Some VNone) (Some (VStr "shown"));
            mkCell (Some 7) (Some (VStr "later")) None]) (Some 7)
  = VNone /\
  cell_value (mkRow [mkCell (Some 7) None (Some (VStr "shown"))]) (Some 7)
  = VStr "shown" /\
  cell_value demo_row (Some 9) = VNone.
Proof.
  destruct C10_cell_value_key_presence as (Hfirst & Hnone & _).
  split; [|split].
  - apply (Hfirst [text_cell 1 "Alpha"]
                  (mkCell (Some 7) (Some VNone) (Some (VStr "shown")))
                  [mkCell (Some 7) (Some (VStr "later")) None] (Some 7)).
    + intros c [<- | []]. discriminate.
    + reflexivity.
  - apply (Hfirst [] (mkCell (Some 7) None (Some (VStr "shown"))) [] (Some 7)).
    + intros c [].
    + reflexivity.
  - apply Hnone. simpl.
    intros c [<- | [<- | [<- | [<- | []]]]]; discriminate.
Defined.


(* ================================================================== *)
(** * Further properties of the code *)

(** ** [build_column_maps] *)

Lemma get_setitem {V} (d : dict V) k v k' :
  get (setitem d k v) k' = if String.eqb k k' then Some v else get d k'.
Proof.
  induction d as [|[k0 v0] t IH]; simpl.
  - reflexivity.
  - destruct (String.eqb k0 k) eqn:E0; simpl.
    + apply String.eqb_eq in E0. subst k0. now destruct (String.eqb k k').
    + rewrite IH. destruct (String.eqb k0 k') eqn:E1; [|reflexivity].
      apply String.eqb_eq in E1. subst k0. now rewrite String.eqb_sym, E0.
Qed.

Lemma get_fold_setitem (f : Column -> string) cols b k :
  get (fold_left (fun m c => setitem m (f c) (id c)) cols b) k
  = match find_last (fun c => String.eqb (f c) k) cols with
    | Some c => Some (id c)
    | None => get b k
    end.
Proof.
  revert b. induction cols as [|c t IH]; intros b; simpl; [reflexivity|].
  rewrite IH. destruct (find_last _ t); [reflexivity|].
  rewrite get_setitem. now destruct (String.eqb (f c) k).
Qed.

Lemma column_step_title cols a b c :
  fst (fst (fold_left column_step cols (a, b, c)))
  = fold_left (fun m col => setitem m (title col) (id col)) cols a.
Proof.
  revert a b c. induction cols as [|col t IH]; intros; simpl; [reflexivity|].
  apply IH.
Qed.

Lemma column_step_primary cols a b c :
  snd (fold_left column_step cols (a, b, c))
  = match find_last primary cols with
    | Some col => Some (id col)
    | None => c
    end.
Proof.
  revert a b c. induction cols as [|col t IH]; intros; simpl; [reflexivity|].
  rewrite IH. destruct (find_last primary t); [reflexivity|].
  now destruct (primary col).
Qed.

Lemma find_last_some {A} (p : A -> bool) l x :
  find_last p l = Some x -> In x l /\ p x = true.
Proof.
  induction l as [|y t IH]; simpl; [discriminate|].
  destruct (find_last p t) as [z|].
  - intros [= <-]. destruct (IH eq_refl). auto.
  - destruct (p y) eqn:E; [intros [= <-]; auto | discriminate].
Qed.

Lemma find_last_none {A} (p : A -> bool) l :
  find_last p l = None <-> forall x, In x l -> p x = false.
Proof.
  induction l as [|y t IH]; simpl.
  - split; [intros _ x [] | reflexivity].
  - destruct (find_last p t) as [z|].
    + split; [discriminate|]. intros H.
      apply IH. intros x I. apply H. now right.
    + destruct (p y) eqn:E.
      * split; [discriminate|]. intros H. rewrite (H y) in E by now left.
        discriminate.
      * split; [|reflexivity]. intros _ x [<- | I]; [exact E|].
        now apply (proj1 IH).
Qed.

(** X1.  Both maps of [build_column_maps] answer a lookup with the id of the
    last column filed under the name: under its title in [title_to_id],
    under its trimmed, lower-cased title in [norm_to_id]; a name no column
    has is not a key. *)
Theorem X1_column_maps_last_wins :
  forall (sheet : Sheet) (k : string),
    get (title_to_id_of sheet) k
    = option_map id (find_last (fun c => String.eqb (title c) k)
                               (columns sheet)) /\
    get (norm_to_id_of sheet) k
    = option_map id (find_last (fun c => String.eqb (norm_title c) k)
                               (columns sheet)) /\
    (mem (norm_to_id_of sheet) k = true <->
     exists c, In c (columns sheet) /\ norm_title c = k).
Proof.
  intros sheet k.
  assert (N : get (norm_to_id_of sheet) k
              = option_map id (find_last (fun c => String.eqb (norm_title c) k)
                                         (columns sheet))).
  { unfold norm_to_id_of, build_column_maps. rewrite column_step_norm.
    rewrite (get_fold_setitem norm_title). now destruct (find_last _ _). }
  split; [|split; [exact N|]].
  - unfold title_to_id_of, build_column_maps. rewrite column_step_title.
    rewrite (get_fold_setitem title). now destruct (find_last _ _).
  - unfold mem. rewrite N.
    destruct (find_last _ (columns sheet)) as [c|] eqn:F; simpl.
    + apply find_last_some in F as [I E]. apply String.eqb_eq in E.
      split; eauto.
    + split; [discriminate|]. intros (c & I & E).
      rewrite find_last_none in F. specialize (F c I).
      apply String.eqb_neq in F. contradiction.
Qed.

(** X2.  The primary column id of [build_column_maps] is the id of the last
    column flagged primary, and [None] exactly when no column is flagged. *)
Theorem X2_primary_is_last_flagged :
  forall sheet : Sheet,
    primary_col_id_of sheet
    = option_map id (find_last primary (columns sheet)) /\
    (primary_col_id_of sheet = None <->
     forall c, In c (columns sheet) -> primary c = false).
Proof.
  intros sheet.
  assert (P : primary_col_id_of sheet
              = option_map id (find_last primary (columns sheet))).
  { unfold primary_col_id_of, build_column_maps. rewrite column_step_primary.
    now destruct (find_last _ _). }
  split; [exact P|]. rewrite P, <- find_last_none.
  destruct (find_last primary (columns sheet)); simpl;
    split; congruence.
Qed.

(** ** [detect_milestone_sets] outside the maps of [build_column_maps] *)

Lemma detect_step_raise d e k : detect_step d (Raise e) k = Raise e.
Proof. reflexivity. Qed.

Lemma detect_fold_raise d ks e :
  fold_left (detect_step d) ks (Raise e) = Raise e.
Proof. induction ks as [|k t IH]; simpl; [reflexivity | exact IH]. Qed.

Lemma detect_step_cases d acc k :
  (detect_step d (Ok acc) k = Ok (acc ++ candidate d k)%list /\
   forall n, ~ dangling d k n) \/
  (exists n, dangling d k n /\
             detect_step d (Ok acc) k = Raise (KeyError ("m" ++ n))).
Proof.
  unfold dangling.
  destruct (base_re_match k) as [n|] eqn:M.
  - destruct (mem d ("m" ++ n)) eqn:B.
    + left. split.
      * apply detect_step_ok. intros n' E. rewrite M in E. now injection E as <-.
      * intros n' (E & _ & _ & B'). injection E as <-. congruence.
    + destruct (mem d (("m" ++ n) ++ " date") &&
                mem d (("m" ++ n) ++ " status")) eqn:C.
      * right. exists n. apply andb_true_iff in C as [C1 C2].
        split; [auto|]. unfold detect_step, bind. rewrite M. cbn zeta.
        rewrite C1, C2. cbn [andb]. unfold getitem, mem in *.
        now destruct (get d ("m" ++ n)).
      * left. split.
        -- unfold detect_step, candidate, bind. rewrite M. cbn zeta.
           rewrite C. unfold mem in B.
           destruct (get d ("m" ++ n)); [discriminate|]. now rewrite app_nil_r.
        -- intros n' (E & C1 & C2 & _). injection E as <-.
           rewrite C1, C2 in C. discriminate.
  - left. split.
    + unfold detect_step, candidate, bind. rewrite M. now rewrite app_nil_r.
    + intros n' (E & _). discriminate.
Qed.

Lemma detect_fold_cases d ks acc :
  (fold_left (detect_step d) ks (Ok acc)
   = Ok (acc ++ flat_map (candidate d) ks)%list /\
   forall k n, In k ks -> ~ dangling d k n) \/
  (exists k n, In k ks /\ dangling d k n /\
               fold_left (detect_step d) ks (Ok acc)
               = Raise (KeyError ("m" ++ n))).
Proof.
  revert acc. induction ks as [|k t IH]; intros acc; cbn [fold_left flat_map].
  - left. split; [now rewrite app_nil_r | intros k n []].
  - destruct (detect_step_cases d acc k) as [[E N] | (n & D & E)]; rewrite E.
    + destruct (IH (acc ++ candidate d k)%list)
        as [[E' N'] | (k' & n' & I & D' & E')].
      * left. split; [now rewrite E', <- app_assoc|].
        intros k' n' [<- | I]; [apply N | now apply N'].
      * right. exists k', n'. split; [now right | auto].
    + right. exists k, n. split; [now left|].
      split; [exact D | apply detect_fold_raise].
Qed.

Lemma span_digits_app n rest :
  PyStr.all_chars PyStr.is_digit n = true ->
  match rest with
  | EmptyString => True
  | String c _ => PyStr.is_digit c = false
  end ->
  span_digits (n ++ rest) = (n, rest).
Proof.
  intros Hn Hr. induction n as [|c t IH]; simpl.
  - destruct rest as [|c r]; [reflexivity|]. simpl. now rewrite Hr.
  - simpl in Hn. apply andb_true_iff in Hn as [-> Ht]. now rewrite IH.
Qed.

Lemma base_re_match_newline n :
  is_number n -> base_re_match (("m" ++ n) ++ PyStr.newline) = Some n.
Proof.
  intros [Ne Hd]. cbn [append].
  change (base_re_match (String "m" (n ++ PyStr.newline)))
    with (let '(n0, tail) := span_digits (n ++ PyStr.newline) in
          if negb (n0 =? "")%string &&
             ((tail =? "")%string || (tail =? PyStr.newline)%string)
          then Some n0 else None).
  rewrite span_digits_app by (trivial; reflexivity).
  apply String.eqb_neq in Ne. now rewrite Ne.
Qed.

(** a dangling key of the map is a name that ends in a newline *)
Lemma dangling_newline d k n :
  In k (keys d) -> dangling d k n ->
  is_number n /\ k = ("m" ++ n) ++ PyStr.newline.
Proof.
  intros I (M & _ & _ & B).
  apply base_re_match_some in M as [Hn [E | E]]; [|auto].
  exfalso. subst k. apply mem_keys in I. congruence.
Qed.

(** a complete triple gives a candidate *)
Lemma triple_candidate (d : dict Z) n :
  is_number n ->
  In ("m" ++ n) (keys d) ->
  In ("m" ++ n ++ " date") (keys d) ->
  In ("m" ++ n ++ " status") (keys d) ->
  exists x, In x (flat_map (candidate d) (keys d)) /\ label x = "M" ++ n.
Proof.
  intros Hn Ib Id Is.
  destruct (in_keys_get d _ Ib) as [t Gt].
  destruct (in_keys_get d _ Id) as [dd Gd].
  destruct (in_keys_get d _ Is) as [st Gs].
  exists (mkSet ("M" ++ n) t dd st). split; [|reflexivity].
  apply in_flat_map. exists ("m" ++ n). split; [exact Ib|].
  apply in_candidate. exists n.
  split; [now apply base_re_match_number | auto].
Qed.

(** X3.  When [detect_milestone_sets] raises on an arbitrary map.  It raises
    the [KeyError] of a missing base name [m<n>] exactly when a key is
    [m<n>] followed by a newline (which the pattern's [$] lets through)
    while [m<n>] itself is missing and both companion names are present.
    Otherwise it raises [ValueError], from [int] in the sort key, exactly
    when the number of a complete triple has more than 4300 digits.  It
    raises in no other case and nothing else. *)
Theorem X3_when_detect_raises :
  forall d : dict Z,
    let dangling_key :=
      exists n, is_number n /\
                In (("m" ++ n) ++ PyStr.newline) (keys d) /\
                ~ In ("m" ++ n) (keys d) /\
                In ("m" ++ n ++ " date") (keys d) /\
                In ("m" ++ n ++ " status") (keys d) in
    let long_triple :=
      exists n, is_number n /\
                4300 < Z.of_nat (String.length n) /\
                In ("m" ++ n) (keys d) /\
                In ("m" ++ n ++ " date") (keys d) /\
                In ("m" ++ n ++ " status") (keys d) in
    ((exists e, detect_milestone_sets d = Raise e) <->
     dangling_key \/ long_triple) /\
    ((exists b, detect_milestone_sets d = Raise (KeyError b)) <->
     dangling_key) /\
    (detect_milestone_sets d = Raise ValueError <->
     ~ dangling_key /\ long_triple) /\
    (forall e, detect_milestone_sets d = Raise e ->
               e = ValueError \/
               exists n, is_number n /\ ~ In ("m" ++ n) (keys d) /\
                         e = KeyError ("m" ++ n)).
Proof.
  intros d dangling_key long_triple. unfold detect_milestone_sets.
  destruct (detect_fold_cases d (keys d) []) as [[E N] | (k & n & I & D & E)];
    rewrite E; cbn [bind app].
  - assert (Nd : ~ dangling_key).
    { intros (n & Hn & Ik & Nb & Id & Is).
      apply (N _ n Ik). repeat split.
      - now apply base_re_match_newline.
      - now apply mem_keys.
      - now apply mem_keys.
      - destruct (mem d ("m" ++ n)) eqn:B; [|reflexivity].
        apply mem_keys in B. contradiction. }
    destruct (sort_with_key_cases label_number false
                (flat_map (candidate d) (keys d)))
      as [[K S] | (x & e0 & Ix & Hx & S)]; rewrite S.
    + assert (Nl : ~ long_triple).
      { intros (n & Hn & Long & Ib & Id & Is).
        destruct (triple_candidate d n Hn Ib Id Is) as (x & Ix & L).
        rewrite Forall_forall in K. destruct (K x Ix) as [z Hz].
        rewrite (label_number_digits x n L), int_long in Hz by exact Long.
        discriminate. }
      split; [split | split; [split | split; [split|]]].
      * intros [e H]. discriminate.
      * intros [H | H]; contradiction.
      * intros [b H]. discriminate.
      * intros H. contradiction.
      * discriminate.
      * intros [_ H]. contradiction.
      * intros e H. discriminate.
    + assert (e0 = ValueError) by (eapply label_number_raise; exact Hx).
      subst e0.
      assert (Hl : long_triple).
      { apply in_flat_map in Ix as (k & Ik & Ix).
        apply in_candidate in Ix as (n & M & L & T & Dd & Ds).
        rewrite (label_number_digits x n L) in Hx.
        apply base_re_match_some in M as [Hn _].
        exists n. split; [exact Hn|]. split.
        - destruct (Z.ltb_spec 4300 (Z.of_nat (String.length n))) as [?|Le];
            [assumption|].
          destruct (int_short n Hn Le) as [z Hz]. congruence.
        - apply get_in in T, Dd, Ds. unfold keys. repeat split.
          + change ("m" ++ n) with (fst ("m" ++ n, title_id x)).
            now apply in_map.
          + change ("m" ++ n ++ " date")
              with (fst ("m" ++ n ++ " date", date_id x)).
            now apply in_map.
          + change ("m" ++ n ++ " status")
              with (fst ("m" ++ n ++ " status", status_id x)).
            now apply in_map. }
      split; [split | split; [split | split; [split|]]].
      * intros _. now right.
      * eauto.
      * intros [b H]. discriminate.
      * intros H. contradiction.
      * intros _. split; assumption.
      * reflexivity.
      * intros e [= <-]. now left.
  - destruct (dangling_newline d k n I D) as [Hn ->].
    destruct D as (_ & Dd & Ds & B).
    assert (Nb : ~ In ("m" ++ n) (keys d))
      by (intros J; apply mem_keys in J; congruence).
    assert (Hd : dangling_key)
      by (exists n; apply mem_keys in Dd, Ds; auto 6).
    split; [split | split; [split | split; [split|]]].
    + intros _. now left.
    + eauto.
    + intros _. exact Hd.
    + eauto.
    + discriminate.
    + intros [H _]. contradiction.
    + intros e [= <-]. right. eauto.
Qed.

Lemma in_get {V} (d : dict V) k v :
  NoDup (keys d) -> In (k, v) d -> get d k = Some v.
Proof.
  induction d as [|[k' v'] t IH]; simpl; [contradiction|].
  intros N [E | I]; inversion N as [|? ? Hnot Nt]; subst.
  - injection E as -> ->. now rewrite String.eqb_refl.
  - destruct (String.eqb k' k) eqn:E; [|auto].
    apply String.eqb_eq in E. subst k'. exfalso. apply Hnot.
    unfold keys. change k with (fst (k, v)). now apply in_map.
Qed.

(** lookups do not depend on the order of the entries *)
Lemma get_permutation {V} (d1 d2 : dict V) k :
  NoDup (keys d1) -> Permutation d1 d2 -> get d2 k = get d1 k.
Proof.
  intros N P.
  assert (N2 : NoDup (keys d2))
    by (eapply Permutation_NoDup; [apply Permutation_map; exact P | exact N]).
  destruct (get d1 k) as [v|] eqn:G1.
  - apply get_in in G1. apply in_get; [exact N2|].
    eapply Permutation_in; eassumption.
  - destruct (get d2 k) as [v|] eqn:G2; [|reflexivity].
    apply get_in in G2. symmetry in P.
    apply (Permutation_in _ P) in G2. apply (in_get _ _ _ N) in G2. congruence.
Qed.

Lemma candidate_permutation d1 d2 k :
  NoDup (keys d1) -> Permutation d1 d2 -> candidate d2 k = candidate d1 k.
Proof.
  intros N P. unfold candidate.
  destruct (base_re_match k); [|reflexivity]. cbn zeta.
  now rewrite !(get_permutation d1 d2) by assumption.
Qed.

(** a list sorted on keys that are all different is the only sorted
    arrangement of its elements *)
Lemma sorted_perm_unique {A} (key : A -> Z) rev (s1 s2 : list A) :
  StronglySorted (in_order key rev) s1 ->
  StronglySorted (in_order key rev) s2 ->
  Permutation s1 s2 -> NoDup (map key s1) -> s1 = s2.
Proof.
  revert s2. induction s1 as [|a t1 IH]; intros s2 S1 S2 P N.
  - apply Permutation_nil in P. now subst.
  - destruct s2 as [|b t2];
      [apply Permutation_sym, Permutation_nil in P; discriminate|].
    inversion S1 as [|? ? St1 Fa]; inversion S2 as [|? ? St2 Fb]; subst.
    inversion N as [|? ? Hnot Nt]; subst.
    assert (E : a = b).
    { assert (Ia : In a (b :: t2))
        by (eapply Permutation_in; [exact P | now left]).
      destruct Ia as [<- | Ia]; [reflexivity|].
      assert (Ib : In b (a :: t1))
        by (eapply Permutation_in; [symmetry; exact P | now left]).
      destruct Ib as [-> | Ib]; [reflexivity|].
      exfalso. apply Hnot.
      rewrite Forall_forall in Fa, Fb.
      assert (Rab := Fa b Ib). assert (Rba := Fb a Ia).
      assert (K : key a = key b)
        by (unfold in_order in *; destruct rev; lia).
      rewrite K. now apply in_map. }
    subst b. f_equal. apply IH; trivial.
    now apply Permutation_cons_inv in P.
Qed.

Lemma list_sort_permutation {A} (key : A -> Z) rev (l1 l2 : list A) :
  Permutation l1 l2 -> NoDup (map key l1) ->
  list_sort key rev l1 = list_sort key rev l2.
Proof.
  intros P N. apply (sorted_perm_unique key rev).
  - apply list_sort_sorted.
  - apply list_sort_sorted.
  - rewrite !list_sort_perm. exact P.
  - eapply Permutation_NoDup; [|exact N].
    apply Permutation_map. symmetry. apply list_sort_perm.
Qed.

(** X4.  The schema does not depend on the order of the columns when no two
    detected milestones have the same number: two maps of normalized names
    with the same entries in different orders give the same schema list,
    provided the numbers of the entries are pairwise different (as they are
    unless a number also occurs with leading zeros). *)
Theorem X4_detect_order_independent :
  forall (d1 d2 : dict Z) (sets : list MilestoneSet),
    NoDup (keys d1) -> Forall normalized (keys d1) ->
    Permutation d1 d2 ->
    detect_milestone_sets d1 = Ok sets ->
    NoDup (map label_number sets) ->
    detect_milestone_sets d2 = Ok sets.
Proof.
  intros d1 d2 sets N F P D Nn.
  assert (Pk : Permutation (keys d1) (keys d2)) by now apply Permutation_map.
  assert (F2 : Forall normalized (keys d2))
    by (eapply Permutation_Forall; eassumption).
  destruct (detect_normalized_inv d1 sets F D) as [K ->].
  assert (Pc : Permutation (flat_map (candidate d1) (keys d1))
                           (flat_map (candidate d2) (keys d2))).
  { rewrite (flat_map_ext (candidate d2) (candidate d1))
      by (intros k; now apply candidate_permutation).
    now apply Permutation_flat_map. }
  rewrite detect_milestone_sets_ok by exact F2.
  rewrite sort_with_key_ok by (eapply Permutation_Forall; eassumption).
  f_equal. symmetry. apply list_sort_permutation; [exact Pc|].
  apply (NoDup_map_inv (@Ok Z)). rewrite <- (key_value_ok label_number _ K).
  eapply Permutation_NoDup; [|exact Nn].
  apply Permutation_map, list_sort_perm.
Qed.

Lemma X4_witness :
  detect_milestone_sets
    [("m5 date", 12); ("m5", 11);
     ("m1 status", 10); ("m1 date", 9); ("m1", 8);
     ("m2 status", 7); ("m2 date", 6); ("m2", 5);
     ("m10 status", 4); ("m10 date", 3); ("m10", 2);
     ("project", 1)]
  = Ok [mkSet "M1" 8 9 10; mkSet "M2" 5 6 7; mkSet "M10" 2 3 4].
Proof.
  apply (X4_detect_order_independent demo_names).
  - unfold demo_names, keys. cbn [map fst].
    repeat (constructor; [cbn [In]; intuition discriminate|]). constructor.
  - unfold demo_names, keys. cbn [map fst].
    repeat (constructor; [reflexivity|]). constructor.
  - exact (Permutation_rev demo_names).
  - reflexivity.
  - vm_compute. repeat (constructor; [cbn [In]; intuition discriminate|]).
    constructor.
Defined.

(** ** The evaluator: what a result holds *)

Lemma detect_sheet_labels sheet sets :
  detect_milestone_sets (norm_to_id_of sheet) = Ok sets ->
  NoDup (map label sets) /\
  forall ms, In ms sets -> exists n, label ms = "M" ++ n.
Proof.
  intros D. destruct (detect_on_sheet_inv _ _ D) as [_ ->].
  destruct (norm_to_id_of_wf sheet) as [N F]. split.
  - eapply Permutation_NoDup;
      [apply Permutation_map; symmetry; apply list_sort_perm|].
    now apply candidate_labels_nodup.
  - intros ms I. apply in_list_sort, in_flat_map in I as (k & _ & I).
    apply in_candidate in I as (n & _ & L & _). eauto.
Qed.

(** the labels of the hits of a row are those of the schema entries that
    give a hit, in schema order *)
Lemma row_hits_labels today sets row :
  map hit_label (row_hits today sets row)
  = map label
      (filter (fun ms => match milestone_hit today row ms with
                         | Some _ => true
                         | None => false
                         end) sets).
Proof.
  rewrite row_hits_flat_map.
  induction sets as [|ms t IH]; simpl; [reflexivity|].
  destruct (milestone_hit today row ms) as [h|] eqn:M; simpl.
  - apply milestone_hit_some in M as (d & _ & _ & _ & ->). simpl.
    now rewrite IH.
  - exact IH.
Qed.

Lemma nodup_map_filter {A B} (f : A -> B) p (l : list A) :
  NoDup (map f l) -> NoDup (map f (filter p l)).
Proof.
  induction l as [|x t IH]; simpl; [auto|].
  intros N. inversion N as [|? ? Hnot Nt]; subst.
  destruct (p x); simpl; [|auto].
  constructor; [|auto]. intros I. apply Hnot.
  apply in_map_iff in I as (y & E & I). apply filter_In in I as [I _].
  rewrite <- E. now apply in_map.
Qed.

Lemma results_in_row_order_length today p sets rs :
  (List.length (results_in_row_order today p sets rs) <= List.length rs)%nat.
Proof.
  unfold results_in_row_order.
  induction rs as [|row t IH]; simpl; [lia|].
  rewrite length_app. destruct (row_result today p sets row); simpl; lia.
Qed.

(** X5.  The evaluator reports a row at most once and a milestone at most
    once per row: there are no more results than rows, and within a result
    the hits carry pairwise different labels, all of them labels of the
    schema, so a result has no more hits than the schema has entries. *)
Theorem X5_one_hit_per_milestone :
  forall (sheet : Sheet) (w : World) (results : list ProjectResult),
    find_past_due_milestones sheet w = Ok results ->
    (List.length results <= List.length (rows sheet))%nat /\
    exists sets,
      detect_milestone_sets (norm_to_id_of sheet) = Ok sets /\
      forall r,
        In r results ->
        NoDup (map hit_label (hits r)) /\
        incl (map hit_label (hits r)) (map label sets) /\
        (List.length (hits r) <= List.length sets)%nat.
Proof.
  intros sheet w results F.
  destruct (find_ok_inv _ _ _ F) as (today & sets & T & D & _ & E).
  split.
  - rewrite E, (Permutation_length (list_sort_perm _ _ _)).
    apply results_in_row_order_length.
  - exists sets. split; [exact D|]. intros r Ir.
    apply (in_results _ _ _ _ _ _ F T D) in Ir as (row & _ & R).
    apply row_result_some in R as [_ ->]. cbn [hits].
    destruct (detect_sheet_labels _ _ D) as [N _].
    assert (P : Permutation
                  (map hit_label
                     (list_sort days true
                        (row_hits today sets row)))
                  (map label
                     (filter (fun ms =>
                        match milestone_hit today row ms with
                        | Some _ => true
                        | None => false
                        end) sets))).
    { rewrite <- row_hits_labels. apply Permutation_map, list_sort_perm. }
    split; [|split].
    + eapply Permutation_NoDup; [symmetry; exact P|].
      now apply nodup_map_filter.
    + intros l I. apply (Permutation_in _ P) in I.
      apply in_map_iff in I as (ms & <- & I). apply filter_In in I as [I _].
      now apply in_map.
    + rewrite <- (length_map hit_label), (Permutation_length P), length_map.
      apply filter_length_le.
Qed.

Lemma X5_witness :
  (List.length tie_results <= List.length (rows tie_sheet))%nat /\
  exists sets,
    detect_milestone_sets (norm_to_id_of tie_sheet) = Ok sets /\
    forall r,
      In r tie_results ->
      NoDup (map hit_label (hits r)) /\
      incl (map hit_label (hits r)) (map label sets) /\
      (List.length (hits r) <= List.length sets)%nat.
Proof.
  apply (X5_one_hit_per_milestone tie_sheet demo_world tie_results).
  vm_compute. reflexivity.
Defined.

Lemma truthy_py_or a b : truthy b = true -> truthy (py_or a b) = true.
Proof. unfold py_or. now destruct (truthy a) eqn:E. Qed.

(** X6.  Every hit of the evaluator's output comes from a row and a schema
    entry: it carries the entry's label, the raw status cell, and as its
    milestone name the title cell when that is truthy and the label
    otherwise.  So neither a project name nor a milestone name in the
    output is ever empty or [None]. *)
Theorem X6_names_fall_back_and_are_never_empty :
  forall (sheet : Sheet) (w : World) (results : list ProjectResult),
    find_past_due_milestones sheet w = Ok results ->
    exists sets,
      detect_milestone_sets (norm_to_id_of sheet) = Ok sets /\
      forall r,
        In r results ->
        truthy (project r) = true /\
        forall h,
          In h (hits r) ->
          truthy (milestone h) = true /\
          exists row ms,
            In row (rows sheet) /\ In ms sets /\
            hit_label h = label ms /\
            status h = cell_value row (Some (status_id ms)) /\
            milestone h
            = (let t := cell_value row (Some (title_id ms)) in
               if truthy t then t else VStr (label ms)).
Proof.
  intros sheet w results F.
  destruct (find_ok_inv _ _ _ F) as (today & sets & T & D & _ & _).
  exists sets. split; [exact D|]. intros r Ir. split.
  - apply (in_results _ _ _ _ _ _ F T D) in Ir as (row & _ & R).
    apply row_result_some in R as [_ ->]. now apply truthy_py_or.
  - intros h Ih.
    assert (E : exists r, In r results /\ In h (hits r)) by eauto.
    apply (in_output_hits _ _ _ _ _ _ F T D) in E as (row & ms & Irow & Ims & M).
    apply milestone_hit_some in M as (d & _ & _ & _ & ->). cbn [milestone].
    split.
    + apply truthy_py_or.
      destruct (detect_sheet_labels _ _ D) as [_ L].
      destruct (L ms Ims) as (n & ->). reflexivity.
    + exists row, ms. repeat split; trivial.
Qed.

Lemma X6_witness :
  exists sets,
    detect_milestone_sets (norm_to_id_of tie_sheet) = Ok sets /\
    forall r,
      In r tie_results ->
      truthy (project r) = true /\
      forall h,
        In h (hits r) ->
        truthy (milestone h) = true /\
        exists row ms,
          In row (rows tie_sheet) /\ In ms sets /\
          hit_label h = label ms /\
          status h = cell_value row (Some (status_id ms)) /\
          milestone h
          = (let t := cell_value row (Some (title_id ms)) in
             if truthy t then t else VStr (label ms)).
Proof.
  apply (X6_names_fall_back_and_are_never_empty tie_sheet demo_world).
  vm_compute. reflexivity.
Defined.

(** X7.  The ISO text of a calendar date reads back as that date:
    [parse_date(d.isoformat()) == d] for every date [d] that exists, so
    different dates have different ISO texts. *)
Theorem X7_isoformat_parse_date_round_trip :
  forall d : date,
    valid_date d = true ->
    parse_date (VStr (isoformat d)) = Some d /\
    forall d', valid_date d' = true -> isoformat d' = isoformat d -> d' = d.
Proof.
  intros d V. split; [now apply parse_date_isoformat|].
  intros d' V' E. apply parse_date_isoformat in V, V'.
  rewrite E in V'. congruence.
Qed.

Lemma X7_witness :
  parse_date (VStr (isoformat (mkdate 2024 2 29))) = Some (mkdate 2024 2 29).
Proof.
  apply (X7_isoformat_parse_date_round_trip (mkdate 2024 2 29)). reflexivity.
Defined.

(** X8.  A UTC timestamp [YYYY-MM-DDTHH:MM:SSZ] parses to the calendar date
    written in it, whatever the time of day: the date is not moved into the
    configured time zone. *)
Theorem X8_utc_timestamp_keeps_written_date :
  forall (d : date) (hh mm ss : Z),
    valid_date d = true ->
    0 <= hh <= 23 -> 0 <= mm <= 59 -> 0 <= ss <= 59 ->
    parse_date (VStr (isoformat d ++ "T" ++ clock_text hh mm ss ++ "Z"))
    = Some d.
Proof. intros d hh mm ss. apply parse_date_utc_timestamp. Qed.

Lemma X8_witness :
  parse_date (VStr "2020-01-10T23:59:59Z") = Some (mkdate 2020 1 10).
Proof.
  apply (X8_utc_timestamp_keeps_written_date (mkdate 2020 1 10) 23 59 59);
    (reflexivity || lia).
Defined.

(** what a hit of the output records about its due date *)
Lemma output_hit_due sheet w today results r h :
  find_past_due_milestones sheet w = Ok results ->
  get_today_local w = Ok today ->
  In r results -> In h (hits r) ->
  exists d, valid_date d = true /\
            due h = isoformat d /\
            days h = sub_days today d.
Proof.
  intros F T Ir Ih.
  destruct (find_ok_inv _ _ _ F) as (today' & sets & T' & D & _ & _).
  rewrite T in T'. injection T' as <-.
  assert (E : exists r, In r results /\ In h (hits r)) by eauto.
  apply (in_output_hits _ _ _ _ _ _ F T D) in E as (row & ms & _ & _ & M).
  apply milestone_hit_some in M as (d & P & _ & _ & ->).
  exists d. split; [eauto using parse_date_valid | auto].
Qed.

(** X9.  The [due] text of every hit of the output parses back to the date
    its [days] were counted from, and within a result the hits run from the
    oldest due date to the most recent: no hit is due before a hit listed
    ahead of it. *)
Theorem X9_hits_oldest_first :
  forall (sheet : Sheet) (w : World) (results : list ProjectResult),
    find_past_due_milestones sheet w = Ok results ->
    exists today,
      get_today_local w = Ok today /\
      forall r,
        In r results ->
        (forall h, In h (hits r) ->
                   exists d, parse_date (VStr (due h)) = Some d /\
                             days h = sub_days today d) /\
        StronglySorted
          (fun a b => forall da db,
               parse_date (VStr (due a)) = Some da ->
               parse_date (VStr (due b)) = Some db ->
               date_lt db da = false)
          (hits r).
Proof.
  intros sheet w results F.
  destruct (find_ok_inv _ _ _ F) as (today & sets & T & D & _ & _).
  exists today. split; [exact T|]. intros r Ir.
  assert (Hd := fun h => output_hit_due sheet w today results r h F T Ir).
  split.
  - intros h Ih. destruct (Hd h Ih) as (d & V & -> & Dd).
    exists d. split; [now apply parse_date_isoformat | exact Dd].
  - assert (S : StronglySorted (in_order days true) (hits r)).
    { apply (in_results _ _ _ _ _ _ F T D) in Ir as (row & _ & R).
      apply row_result_some in R as [_ ->]. apply list_sort_sorted. }
    revert S. apply StronglySorted_impl_in.
    intros a b Ia Ib Rab da db Pa Pb.
    destruct (Hd a Ia) as (da' & Va & Ea & Da).
    destruct (Hd b Ib) as (db' & Vb & Eb & Db).
    rewrite Ea, parse_date_isoformat in Pa by exact Va.
    rewrite Eb, parse_date_isoformat in Pb by exact Vb.
    injection Pa as <-. injection Pb as <-.
    destruct (date_lt db' da') eqn:L; [|reflexivity].
    assert (Q := toordinal_lt _ _ Vb Va L).
    unfold in_order, sub_days in *. lia.
Qed.

Lemma X9_witness :
  let r := mkResult (VStr "A")
             [mkHit (VStr "M2") "M2" "2020-01-01" 9 VNone;
              mkHit (VStr "M1") "M1" "2020-01-05" 5 VNone] in
  (forall h, In h (hits r) ->
             exists d, parse_date (VStr (due h)) = Some d /\
                       days h = sub_days demo_today d) /\
  StronglySorted
    (fun a b => forall da db,
         parse_date (VStr (due a)) = Some da ->
         parse_date (VStr (due b)) = Some db ->
         date_lt db da = false)
    (hits r).
Proof.
  destruct (X9_hits_oldest_first tie_sheet demo_world tie_results)
    as (today & T & H).
  - vm_compute. reflexivity.
  - injection T as <-. apply H. unfold tie_results. cbn [In]. auto.
Defined.

(** ** [format_summary] on the evaluator's output *)

(** X10.  [format_summary] gives the celebratory message for the empty list
    and for no other list of results. *)
Theorem X10_celebration_iff_no_results :
  forall results : list ProjectResult,
    format_summary results = CELEBRATION <-> results = [].
Proof.
  intros [|r rs]; split; trivial; [|discriminate].
  rewrite format_summary_cons. cbn [PyStr.join append].
  intros H.
  match type of H with
  | PyStr.rstrip (String ?c ?t) = _ =>
      destruct (rstrip_keeps_head c t eq_refl) as [t' E]
  end.
  rewrite E in H. discriminate.
Qed.

(** X11.  The text of [format_summary] has no white space at either end and
    is never empty. *)
Theorem X11_summary_is_stripped :
  forall results : list ProjectResult,
    PyStr.strip (format_summary results) = format_summary results /\
    format_summary results <> "".
Proof.
  intros [|r rs].
  - split; [reflexivity | discriminate].
  - split.
    + unfold format_summary. cbv zeta. apply strip_strip.
    + rewrite format_summary_cons. cbn [PyStr.join append].
      match goal with
      | |- PyStr.rstrip (String ?c ?t) <> _ =>
          destruct (rstrip_keeps_head c t eq_refl) as [t' E]
      end.
      rewrite E. discriminate.
Qed.

Lemma flat_map_hits_rows today p sets rs :
  List.length (flat_map hits (results_in_row_order today p sets rs))
  = List.length (flat_map (row_hits today sets) rs).
Proof.
  unfold results_in_row_order.
  induction rs as [|row t IH]; simpl; [reflexivity|].
  rewrite flat_map_app, !length_app, IH. f_equal.
  unfold row_result, row_step.
  destruct (row_hits today sets row) as [|h hs] eqn:E; [reflexivity|].
  cbn [opt_list flat_map hits app]. rewrite app_nil_r.
  apply Permutation_length, list_sort_perm.
Qed.

Lemma results_in_row_order_count today p sets rs :
  List.length (results_in_row_order today p sets rs)
  = List.length
      (filter (fun row => match row_hits today sets row with
                          | [] => false
                          | _ :: _ => true
                          end) rs).
Proof.
  unfold results_in_row_order.
  induction rs as [|row t IH]; simpl; [reflexivity|].
  rewrite length_app, IH. unfold row_result, row_step.
  now destruct (row_hits today sets row).
Qed.

Lemma row_hits_length today sets row :
  List.length (row_hits today sets row)
  = List.length
      (filter (fun ms => match milestone_hit today row ms with
                         | Some _ => true
                         | None => false
                         end) sets).
Proof.
  rewrite <- (length_map hit_label), row_hits_labels. apply length_map.
Qed.

Lemma row_has_hits today sets row :
  match row_hits today sets row with [] => false | _ :: _ => true end
  = existsb (fun ms => match milestone_hit today row ms with
                       | Some _ => true
                       | None => false
                       end) sets.
Proof.
  rewrite row_hits_flat_map.
  induction sets as [|ms t IH]; simpl; [reflexivity|].
  destruct (milestone_hit today row ms); simpl; [reflexivity | exact IH].
Qed.

Lemma filter_pairs_length {A B} (p : A * B -> bool) (x : A) (l : list B) :
  List.length (filter p (map (fun y => (x, y)) l))
  = List.length (filter (fun y => p (x, y)) l).
Proof.
  induction l as [|y t IH]; simpl; [reflexivity|].
  destruct (p (x, y)); simpl; now rewrite IH.
Qed.

Lemma hits_of_rows_length today sets rs :
  List.length (flat_map (row_hits today sets) rs)
  = List.length
      (filter (fun '(row, ms) => match milestone_hit today row ms with
                                 | Some _ => true
                                 | None => false
                                 end)
              (list_prod rs sets)).
Proof.
  induction rs as [|row t IH]; simpl; [reflexivity|].
  rewrite filter_app, !length_app, IH, row_hits_length.
  now rewrite filter_pairs_length.
Qed.

(** X12.  The two counts [format_summary] prints for the evaluator's output
    count the document: [total] is the number of pairs of a row and a
    schema entry that give a hit, and the number of projects is the number
    of rows with at least one hit. *)
Theorem X12_header_counts_the_document :
  forall (sheet : Sheet) (w : World) (results : list ProjectResult),
    find_past_due_milestones sheet w = Ok results ->
    exists today sets,
      let gives_hit := fun row ms =>
        match milestone_hit today row ms with
        | Some _ => true
        | None => false
        end in
      get_today_local w = Ok today /\
      detect_milestone_sets (norm_to_id_of sheet) = Ok sets /\
      total_hits results
      = Z.of_nat
          (List.length
             (filter (fun '(row, ms) => gives_hit row ms)
                     (list_prod (rows sheet) sets))) /\
      List.length results
      = List.length
          (filter (fun row => existsb (gives_hit row) sets) (rows sheet)).
Proof.
  intros sheet w results F.
  destruct (find_ok_inv _ _ _ F) as (today & sets & T & D & _ & E).
  exists today, sets. cbv zeta. split; [exact T|]. split; [exact D|].
  subst results. split.
  - rewrite total_hits_count. f_equal.
    rewrite (Permutation_length
               (Permutation_flat_map hits (list_sort_perm top_days true _))).
    rewrite flat_map_hits_rows. apply hits_of_rows_length.
  - rewrite (Permutation_length (list_sort_perm _ _ _)).
    rewrite results_in_row_order_count.
    f_equal. apply filter_ext. intros row. apply row_has_hits.
Qed.

Lemma X12_witness :
  total_hits tie_results = 5 /\ List.length tie_results = 3%nat.
Proof.
  destruct (X12_header_counts_the_document tie_sheet demo_world tie_results)
    as (today & sets & C & D & T & L).
  - vm_compute. reflexivity.
  - injection C as <-. split.
    + rewrite T. vm_compute in D. injection D as <-. vm_compute. reflexivity.
    + rewrite L. vm_compute in D. injection D as <-. vm_compute. reflexivity.
Defined.

(** ** [normalize_status] *)

(** X13.  [normalize_status] is idempotent: normalizing a status that is
    already normalized changes nothing. *)
Theorem X13_normalize_status_idempotent :
  forall v : pyval,
    normalize_status (VStr (normalize_status v)) = normalize_status v.
Proof.
  intros [| b | n | s]; try apply normalized_lower_strip. reflexivity.
Qed.

(* ================================================================== *)
(** * The run: [main], [fetch_sheet], [post_to_slack] *)

Lemma post_to_slack_cases p text :
  post_to_slack p text =
  if String.eqb (SLACK_WEBHOOK_URL p) "" then ([], Done tt)
  else ([Post (SLACK_WEBHOOK_URL p) text 20],
        match http_post p (SLACK_WEBHOOK_URL p) text with
        | NoResponse => Failed RequestException
        | Response _ _ => Done tt
        end).
Proof.
  unfold post_to_slack. destruct (String.eqb _ ""); [reflexivity|].
  unfold io_bind, emit. now destruct (http_post p _ text).
Qed.

Lemma fetch_sheet_cases p :
  fetch_sheet p (opt_str (SHEET_ID p)) =
  ([Get (sheet_url p) (smartsheet_headers p) 30],
   match http_get p (sheet_url p) (smartsheet_headers p) with
   | NoResponse => Failed RequestException
   | Response code body =>
       if is_error_status code then Failed (HTTPError code)
       else match body with
            | Some sheet => Done sheet
            | None => Failed JSONDecodeError
            end
   end).
Proof.
  unfold fetch_sheet, sheet_url, io_bind, emit. cbv zeta.
  destruct (http_get p _ _) as [|code [sheet|]]; try reflexivity;
    now destruct (is_error_status code).
Qed.

(** the runs of [main], case by case *)
Lemma main_cases p :
  main p =
  if negb (opt_truthy (SMARTSHEET_TOKEN p)) || negb (opt_truthy (SHEET_ID p))
  then ([], Failed (Exn (RuntimeError MISSING_CONFIG)))
  else
    let get := Get (sheet_url p) (smartsheet_headers p) 30 in
    match http_get p (sheet_url p) (smartsheet_headers p) with
    | NoResponse => ([get], Failed RequestException)
    | Response code body =>
        if is_error_status code then ([get], Failed (HTTPError code))
        else
          match body with
          | None => ([get], Failed JSONDecodeError)
          | Some sheet =>
              match find_past_due_milestones sheet (world p) with
              | Raise e => ([get], Failed (Exn e))
              | Ok results =>
                  let summary := format_summary results in
                  let '(t, r) := post_to_slack p summary in
                  (get :: Print summary :: t, r)
              end
          end
    end.
Proof.
  unfold main. destruct (_ || _); [reflexivity|].
  rewrite fetch_sheet_cases. cbv zeta.
  destruct (http_get p _ _) as [|code [sheet|]]; try reflexivity;
    destruct (is_error_status code); try reflexivity.
  cbn [io_bind].
  destruct (find_past_due_milestones sheet (world p)) as [results|e];
    [|reflexivity].
  cbn [lift_result io_ret io_bind emit].
  now destruct (post_to_slack p (format_summary results)).
Qed.

Lemma fetched_some p sheet :
  fetched p = Some sheet <->
  exists code, http_get p (sheet_url p) (smartsheet_headers p)
               = Response code (Some sheet) /\
               is_error_status code = false.
Proof.
  unfold fetched.
  destruct (http_get p _ _) as [|code [s|]].
  - split; [discriminate | intros (c & ? & _); discriminate].
  - destruct (is_error_status code) eqn:E.
    + split; [discriminate | intros (c & [= <- <-] & ?); congruence].
    + split; [intros [= <-]; eauto | intros (c & [= <- <-] & _); reflexivity].
  - split; [discriminate | intros (c & ? & _); discriminate].
Qed.

Lemma opt_truthy_some o :
  opt_truthy o = true -> exists s, o = Some s /\ s <> "" /\ opt_str o = s.
Proof.
  destruct o as [s|]; simpl; [|discriminate].
  intros H. apply negb_true_iff, String.eqb_neq in H. eauto.
Qed.

(** X14.  [main] checks the configuration before anything else: when the
    token or the sheet id is unset or empty it raises its [RuntimeError]
    without sending a request or printing; otherwise the first thing it does
    is one GET of [BASE_URL/sheets/<id>] with the bearer token in the
    [Authorization] header and a timeout of 30 seconds. *)
Theorem X14_configuration_checked_first :
  forall p : Process,
    (opt_truthy (SMARTSHEET_TOKEN p) = false \/
     opt_truthy (SHEET_ID p) = false ->
     main p = ([], Failed (Exn (RuntimeError MISSING_CONFIG)))) /\
    (forall token sheet_id,
        SMARTSHEET_TOKEN p = Some token -> token <> "" ->
        SHEET_ID p = Some sheet_id -> sheet_id <> "" ->
        exists rest,
          fst (main p)
          = Get ("https://api.smartsheet.com/2.0/sheets/" ++ sheet_id)
                [("Authorization", "Bearer " ++ token);
                 ("Content-Type", "application/json")] 30 :: rest).
Proof.
  intros p. rewrite main_cases. split.
  - intros [H | H]; rewrite H; [reflexivity | now rewrite orb_true_r].
  - intros token sheet_id Ht Nt Hs Ns.
    unfold sheet_url, smartsheet_headers. rewrite Ht, Hs. cbn [opt_truthy opt_str].
    apply String.eqb_neq in Nt, Ns. rewrite Nt, Ns. cbn [negb orb].
    cbv zeta.
    destruct (http_get p _ _) as [|code [sheet|]];
      [eexists; reflexivity | |];
      (destruct (is_error_status code); [eexists; reflexivity|]);
      [|eexists; reflexivity].
    destruct (find_past_due_milestones sheet (world p));
      [|eexists; reflexivity].
    destruct (post_to_slack p _). eexists; reflexivity.
Qed.

Lemma X14_witness :
  main (mkProcess None (Some "42") None demo_world
                  (fun _ _ => Response 200 (Some demo_sheet))
                  (fun _ _ => Response 200 None))
  = ([], Failed (Exn (RuntimeError MISSING_CONFIG))).
Proof.
  apply X14_configuration_checked_first. left. reflexivity.
Defined.

(** X15.  What a run prints and posts: a printed text is the summary of the
    evaluator's results on the fetched sheet; a text is posted only after it
    has been printed, only to the webhook URL of the environment with its
    surrounding white space removed, and only when that URL is not empty;
    and a run causes at most one GET, one print and one POST, in this
    order. *)
Theorem X15_print_then_post :
  forall (p : Process) (t : list io_event) (r : outcome unit),
    main p = (t, r) ->
    (forall text,
        In (Print text) t ->
        exists sheet results,
          fetched p = Some sheet /\
          find_past_due_milestones sheet (world p) = Ok results /\
          text = format_summary results) /\
    (forall url text timeout,
        In (Post url text timeout) t ->
        url = SLACK_WEBHOOK_URL p /\ url <> "" /\
        t = [Get (sheet_url p) (smartsheet_headers p) 30;
             Print text; Post url text 20]) /\
    (exists n text,
        t = firstn n [Get (sheet_url p) (smartsheet_headers p) 30;
                      Print text;
                      Post (SLACK_WEBHOOK_URL p) text 20]).
Proof.
  intros p t r. rewrite main_cases.
  destruct (_ || _).
  { intros [= <- <-]. split; [intros ? []|]. split; [intros ? ? ? []|].
    now exists 0%nat, "". }
  cbv zeta.
  destruct (http_get p (sheet_url p) (smartsheet_headers p))
    as [|code [sheet|]] eqn:G.
  1: { intros [= <- <-].
       split; [intros ? [? | []]; discriminate|].
       split; [intros ? ? ? [? | []]; discriminate|]. now exists 1%nat, "". }
  2: { destruct (is_error_status code); intros [= <- <-];
         (split; [intros ? [? | []]; discriminate|]);
         (split; [intros ? ? ? [? | []]; discriminate|]); now exists 1%nat, "". }
  destruct (is_error_status code) eqn:S.
  { intros [= <- <-].
    split; [intros ? [? | []]; discriminate|].
    split; [intros ? ? ? [? | []]; discriminate|]. now exists 1%nat, "". }
  assert (Fe : fetched p = Some sheet) by (apply fetched_some; eauto).
  destruct (find_past_due_milestones sheet (world p)) as [results|e] eqn:E.
  2: { intros [= <- <-].
       split; [intros ? [? | []]; discriminate|].
       split; [intros ? ? ? [? | []]; discriminate|]. now exists 1%nat, "". }
  cbv zeta. rewrite post_to_slack_cases.
  destruct (String.eqb (SLACK_WEBHOOK_URL p) "") eqn:W.
  - intros [= <- <-]. split; [|split].
    + intros text [? | [[= <-] | []]]; [discriminate | eauto].
    + intros ? ? ? [? | [? | []]]; discriminate.
    + now exists 2%nat, (format_summary results).
  - apply String.eqb_neq in W. intros [= <- <-]. split; [|split].
    + intros text [? | [[= <-] | [? | []]]]; try discriminate. eauto.
    + intros url text timeout [? | [? | [[= <- <- <-] | []]]];
        try discriminate. auto.
    + now exists 3%nat, (format_summary results).
Qed.

Lemma X15_witness :
  (forall text,
      In (Print text) (fst (main demo_process)) ->
      exists sheet results,
        fetched demo_process = Some sheet /\
        find_past_due_milestones sheet (world demo_process) = Ok results /\
        text = format_summary results) /\
  (forall url text timeout,
      In (Post url text timeout) (fst (main demo_process)) ->
      url = "https://hooks.example/T1").
Proof.
  destruct (X15_print_then_post demo_process (fst (main demo_process))
              (snd (main demo_process))) as (Hprint & Hpost & _).
  - now destruct (main demo_process).
  - split; [exact Hprint|].
    intros url text timeout I. now destruct (Hpost url text timeout I).
Defined.

(** X16.  A run ends without an exception exactly when the token and the
    sheet id are set, the GET is answered with a JSON document and a status
    outside 400..599, the evaluator returns, and the webhook is either not
    configured or answers the POST at all: the status of the webhook's
    answer is not looked at. *)
Theorem X16_run_succeeds_iff :
  forall p : Process,
    snd (main p) = Done tt <->
    opt_truthy (SMARTSHEET_TOKEN p) = true /\
    opt_truthy (SHEET_ID p) = true /\
    exists sheet results,
      fetched p = Some sheet /\
      find_past_due_milestones sheet (world p) = Ok results /\
      (SLACK_WEBHOOK_URL p = "" \/
       exists code body,
         http_post p (SLACK_WEBHOOK_URL p) (format_summary results)
         = Response code body).
Proof.
  intros p. rewrite main_cases. unfold fetched.
  destruct (opt_truthy (SMARTSHEET_TOKEN p)); cbn [negb orb];
    [|split; [discriminate | intros (? & _); discriminate]].
  destruct (opt_truthy (SHEET_ID p)); cbn [negb orb];
    [|split; [discriminate | intros (_ & ? & _); discriminate]].
  cbv zeta.
  destruct (http_get p (sheet_url p) (smartsheet_headers p))
    as [|code [sheet|]];
    [split; [discriminate | intros (_ & _ & ? & ? & ? & _); discriminate] | |].
  2: { destruct (is_error_status code);
         (split; [discriminate
                 | intros (_ & _ & ? & ? & ? & _); discriminate]). }
  destruct (is_error_status code);
    [split; [discriminate | intros (_ & _ & ? & ? & ? & _); discriminate]|].
  destruct (find_past_due_milestones sheet (world p)) as [results|e] eqn:E.
  2: { split; [discriminate|].
       intros (_ & _ & s & rs & [= <-] & F & _). congruence. }
  rewrite post_to_slack_cases.
  destruct (String.eqb (SLACK_WEBHOOK_URL p) "") eqn:W; cbn [snd].
  - apply String.eqb_eq in W. split; [|reflexivity].
    intros _. repeat split. exists sheet, results. auto.
  - apply String.eqb_neq in W.
    destruct (http_post p (SLACK_WEBHOOK_URL p) (format_summary results))
      as [|c b] eqn:Po.
    + split; [discriminate|].
      intros (_ & _ & s & rs & [= <-] & F & [H | (c & b & H)]);
        [contradiction|].
      rewrite E in F. injection F as <-. congruence.
    + split; [|reflexivity]. intros _. repeat split.
      exists sheet, results. eauto 6.
Qed.



Lemma lstrip_empty s :
  PyStr.lstrip s = "" -> PyStr.all_chars PyStr.is_space s = true.
Proof.
  induction s as [|c t IH]; simpl; [reflexivity|].
  destruct (PyStr.is_space c); [exact IH | discriminate].
Qed.

(** [strip] leaves nothing exactly of the strings of white space *)
Lemma strip_empty_iff s :
  PyStr.strip s = "" <-> PyStr.all_chars PyStr.is_space s = true.
Proof.
  unfold PyStr.strip. split.
  - intros H. apply lstrip_empty.
    assert (Hh := lstrip_head s).
    destruct (PyStr.lstrip s) as [|c t]; [reflexivity|].
    destruct (rstrip_keeps_head c t Hh) as [t' E]. congruence.
  - intros H. now rewrite lstrip_spaces.
Qed.

(** X18.  [post_to_slack] does nothing, and cannot fail, exactly when the
    webhook variable is unset or holds only white space; otherwise it sends
    one POST of the text to the trimmed URL with a timeout of 20 seconds,
    and any response to it, whatever its status, counts as delivered. *)
Theorem X18_post_to_slack_skips_blank_webhook :
  forall (p : Process) (text : string),
    (post_to_slack p text = ([], Done tt) <->
     getenv_SLACK_WEBHOOK_URL p = None \/
     exists s, getenv_SLACK_WEBHOOK_URL p = Some s /\
               PyStr.all_chars PyStr.is_space s = true) /\
    (forall s, getenv_SLACK_WEBHOOK_URL p = Some s ->
               PyStr.all_chars PyStr.is_space s = false ->
               post_to_slack p text
               = ([Post (PyStr.strip s) text 20],
                  match http_post p (PyStr.strip s) text with
                  | NoResponse => Failed RequestException
                  | Response _ _ => Done tt
                  end)).
Proof.
  intros p text. rewrite post_to_slack_cases. unfold SLACK_WEBHOOK_URL.
  destruct (getenv_SLACK_WEBHOOK_URL p) as [s|].
  - assert (I := strip_empty_iff s).
    destruct (String.eqb (PyStr.strip s) "") eqn:W.
    + apply String.eqb_eq in W. apply I in W. split.
      * split; [eauto | reflexivity].
      * intros s' [= <-] N. congruence.
    + apply String.eqb_neq in W. split.
      * split; [discriminate|].
        intros [? | (s' & [= <-] & H)]; [discriminate|].
        apply I in H. contradiction.
      * intros s' [= <-] _. reflexivity.
  - split; [split; [auto | reflexivity] | intros s ?; discriminate].
Qed.

Lemma X18_witness :
  post_to_slack demo_process "late"
  = ([Post "https://hooks.example/T1" "late" 20], Done tt).
Proof.
  destruct (X18_post_to_slack_skips_blank_webhook demo_process "late")
    as [_ H].
  apply (H " https://hooks.example/T1 "); reflexivity.
Defined.

(** ** The evaluator from one day to the next *)

Lemma date_lt_trans d1 d2 d3 :
  date_lt d1 d2 = true -> date_lt d2 d3 = true -> date_lt d1 d3 = true.
Proof.
  unfold date_lt.
  rewrite !orb_true_iff, !andb_true_iff, !orb_true_iff, !andb_true_iff,
    !Z.ltb_lt, !Z.eqb_eq.
  lia.
Qed.

(** X19.  A milestone that gives a hit on one day gives a hit on every later
    day as long as its cells stay the same: the hit is the same except that
    its [days] has grown by the number of days between the two dates. *)
Theorem X19_overdue_stays_overdue :
  forall (today later : date) (row : Row) (ms : MilestoneSet) (h : Hit),
    date_lt today later = true ->
    milestone_hit today row ms = Some h ->
    milestone_hit later row ms
    = Some (mkHit (milestone h) (hit_label h) (due h)
                  (days h + (toordinal later - toordinal today))
                  (status h)).
Proof.
  intros today later row ms h L M.
  apply milestone_hit_some in M as (d & P & Ld & C & ->).
  apply milestone_hit_some. exists d.
  split; [exact P|]. split; [eapply date_lt_trans; eassumption|].
  split; [exact C|]. cbn [milestone hit_label due days status].
  f_equal. unfold sub_days. lia.
Qed.

Lemma X19_witness :
  milestone_hit (mkdate 2020 2 1) demo_row demo_set
  = Some (mkHit (VStr "Kickoff") "M1" "2020-01-01" (9 + 22) (VStr "Open")).
Proof.
  apply (X19_overdue_stays_overdue demo_today (mkdate 2020 2 1) demo_row
           demo_set (mkHit (VStr "Kickoff") "M1" "2020-01-01" 9 (VStr "Open")));
    reflexivity.
Defined.
